(** * sir.py: a one-dimensional epidemic simulation

    A shallow embedding of [sir.py] and the properties of its simulation
    core.  A city is a Python list of strings: ["S"] (susceptible), ["R"]
    (recovered), ["V"] (vaccinated) and ["I<n>"] (infected for [n] days).
    Python integers are [Z], Python strings are [string] (code points
    below 256), Python lists that are only read are [list] values, and the
    lists the program creates or writes live in a store of list objects.
    Exceptions are results of the error monad. *)

From Stdlib Require Import ZArith QArith Qabs Ascii String DecimalString.
From Stdlib Require DecimalPos DecimalZ.
From stdpp Require Import base tactics option list.

#[local] Open Scope string_scope.
#[local] Open Scope list_scope.
#[local] Open Scope Z_scope.

(** ** Exceptions *)

Inductive exn : Type :=
  | IndexError
  | ValueError
  | AssertionError
  | TypeError
  | ZeroDivisionError
  | OverflowError.

Inductive result (A : Type) : Type :=
  | Ok (a : A)
  | Raise (e : exn).
Arguments Ok {A} a.
Arguments Raise {A} e.

#[global] Instance result_ret : MRet result := fun _ a => Ok a.
#[global] Instance result_bind : MBind result := fun _ _ f m =>
  match m with
  | Ok a => f a
  | Raise e => Raise e
  end.

Definition is_ok {A} (r : result A) : bool :=
  match r with Ok _ => true | Raise _ => false end.

(** ** Python strings *)

Module Py.

(** [sub in s] for strings. *)
Fixpoint str_in (sub s : string) : bool :=
  String.prefix sub s ||
  match s with
  | EmptyString => false
  | String _ r => str_in sub r
  end.

(** [s[1:]] *)
Definition tail (s : string) : string :=
  match s with
  | EmptyString => EmptyString
  | String _ r => r
  end.

(** [''.join(l)] *)
Definition join (l : list string) : string :=
  foldr String.append EmptyString l.

(** The characters [str.isspace] accepts, among the code points below 256. *)
Definition is_space (c : ascii) : bool :=
  let n := N_of_ascii c in
  ((9 <=? n) && (n <=? 13) || (28 <=? n) && (n <=? 32)
   || (n =? 133) || (n =? 160))%N.

Fixpoint lstrip (s : string) : string :=
  match s with
  | EmptyString => EmptyString
  | String c r => if is_space c then lstrip r else s
  end.

Fixpoint rstrip (s : string) : string :=
  match s with
  | EmptyString => EmptyString
  | String c r =>
      match rstrip r with
      | EmptyString => if is_space c then EmptyString else String c EmptyString
      | r' => String c r'
      end
  end.

(** [s.strip()] *)
Definition strip (s : string) : string := rstrip (lstrip s).

(** [s.split(sep)] for a one-character separator. *)
Fixpoint split (sep : ascii) (s : string) : list string :=
  match s with
  | EmptyString => [EmptyString]
  | String c r =>
      if Ascii.eqb c sep then EmptyString :: split sep r
      else match split sep r with
           | f :: fs => String c f :: fs
           | [] => [String c EmptyString]
           end
  end.

Definition digit_of (c : ascii) : option Z :=
  let n := N_of_ascii c in
  if ((48 <=? n) && (n <=? 57))%N then Some (Z.of_N n - 48) else None.

(** The digits of a decimal literal after its first digit: a single
    underscore may separate two digits. *)
Fixpoint int_digits (s : string) (acc : Z) : option Z :=
  match s with
  | EmptyString => Some acc
  | String c r =>
      match digit_of c with
      | Some d => int_digits r (10 * acc + d)
      | None =>
          if Ascii.eqb c "_" then
            match r with
            | String c' r' =>
                match digit_of c' with
                | Some d => int_digits r' (10 * acc + d)
                | None => None
                end
            | EmptyString => None
            end
          else None
      end
  end.

Definition int_unsigned (s : string) : option Z :=
  match s with
  | String c r =>
      match digit_of c with
      | Some d => int_digits r d
      | None => None
      end
  | EmptyString => None
  end.

(** The whitespace [int()] skips around a literal, among the code points
    below 256: that of [str.isspace] without the separators 28 to 31. *)
Definition is_int_space (c : ascii) : bool :=
  let n := N_of_ascii c in
  ((9 <=? n) && (n <=? 13) || (n =? 32) || (n =? 133) || (n =? 160))%N.

Fixpoint int_lstrip (s : string) : string :=
  match s with
  | EmptyString => EmptyString
  | String c r => if is_int_space c then int_lstrip r else s
  end.

Fixpoint int_rstrip (s : string) : string :=
  match s with
  | EmptyString => EmptyString
  | String c r =>
      match int_rstrip r with
      | EmptyString =>
          if is_int_space c then EmptyString else String c EmptyString
      | r' => String c r'
      end
  end.

Definition int_strip (s : string) : string := int_rstrip (int_lstrip s).

(** [int(s)] in base 10: surrounding whitespace, an optional sign, digits.
    [None] is a ValueError.  (The interpreter's limit on the number of digits
    of a literal is not modelled.) *)
Definition int_opt (s : string) : option Z :=
  match int_strip s with
  | String "-" r => Z.opp <$> int_unsigned r
  | String "+" r => int_unsigned r
  | t => int_unsigned t
  end.

Definition int (s : string) : result Z :=
  match int_opt s with
  | Some z => Ok z
  | None => Raise ValueError
  end.

(** [str(z)] *)
Definition str (z : Z) : string := NilZero.string_of_int (Z.to_int z).

(** [l[i]], negative indices counting from the end. *)
Definition index {A} (l : list A) (i : Z) : result A :=
  let n := Z.of_nat (length l) in
  let j := if i <? 0 then i + n else i in
  if (j <? 0) || (n <=? j) then Raise IndexError
  else match l !! Z.to_nat j with
       | Some x => Ok x
       | None => Raise IndexError
       end.

(** [len(l)] *)
Definition len {A} (l : list A) : Z := Z.of_nat (length l).

End Py.

(** ** The functions that only read the city

    [count_infected], [has_an_infected_neighbor] and
    [advance_person_at_position] read their [city] argument and write
    nothing: they are functions of the contents of the list. *)

#[global] Instance result_fmap : FMap result := fun _ _ f m =>
  match m with
  | Ok a => Ok (f a)
  | Raise e => Raise e
  end.

(** [a and b], where only [b] can raise. *)
Definition and_then (a : bool) (b : result bool) : result bool :=
  if a then b else Ok false.

(** [a or b], where both can raise. *)
Definition or_else (a b : result bool) : result bool :=
  x ← a; if x : bool then Ok true else b.

Definition count_infected (city : list string) : Z :=
  foldl (fun num_infected ind =>
           if Py.str_in "I" ind then num_infected + 1 else num_infected)
        0 city.

Definition has_an_infected_neighbor (city : list string) (position : Z)
  : result bool :=
  p ← Py.index city position;
  if negb (p =? "S")%string then Raise AssertionError else
  c1 ← and_then ((position =? 0) && (Py.len city >? 1))
         (Py.str_in "I" <$> Py.index city 1);
  if c1 : bool then Ok true else
  c2 ← and_then ((position =? 0) && (Py.len city >? 1))
         (negb <$> (Py.str_in "I" <$> Py.index city 1));
  if c2 : bool then Ok false else
  c3 ← and_then (position =? Py.len city - 1)
         (Py.str_in "I" <$> Py.index city (Py.len city - 2));
  if c3 : bool then Ok true else
  c4 ← and_then (position =? Py.len city - 1)
         (negb <$> (Py.str_in "I" <$> Py.index city (Py.len city - 2)));
  if c4 : bool then Ok false else
  c5 ← and_then (position >? 0)
         (or_else (Py.str_in "I" <$> Py.index city (position - 1))
                  (Py.str_in "I" <$> Py.index city (position + 1)));
  if c5 : bool then Ok true else Ok false.

(** [int(city[position][1:]) + 1] *)
Definition days_plus_one (city : list string) (position : Z) : result Z :=
  p ← Py.index city position;
  n ← Py.int (Py.tail p);
  Ok (n + 1).

Definition advance_person_at_position
    (city : list string) (position : Z) (days_contagious : Z) : result string :=
  c1 ← (p ← Py.index city position;
        and_then (Py.str_in "I" p)
          (d ← days_plus_one city position; Ok (d >=? days_contagious)));
  if c1 : bool then Ok "R" else
  c2 ← (p ← Py.index city position;
        and_then (Py.str_in "I" p)
          (d ← days_plus_one city position; Ok (d <? days_contagious)));
  if c2 : bool then
    d ← days_plus_one city position;
    Ok (Py.join ["I"; Py.str d])
  else
  c3 ← (p ← Py.index city position;
        and_then ("S" =? p)%string
          (b ← has_an_infected_neighbor city position; Ok (Bool.eqb b true)));
  if c3 : bool then Ok "I0" else
  Py.index city position.

(** ** The store of list objects and the random module

    [starting_city[:]] and [new_city = []] create list objects, and
    [new_city[x] = 'V'] and [new_city.append] write one: a list variable
    holds the address of its object in [heap].  The generator of the
    [random] module is global state too: what it was last seeded with and
    how many numbers were drawn since. *)

Definition loc := nat.

Inductive source : Type :=
  | SeedInt (s : Z)      (* random.seed(s) *)
  | SeedOS (k : nat).    (* random.seed(None): the k-th read of OS entropy *)

Record world : Type := World {
  heap : list (list string);
  gen : source;
  drawn : nat;
  os_reads : nat;
  seedings : list (option Z)   (* the arguments of random.seed, oldest first *)
}.

Definition set_heap (h : list (list string)) (w : world) : world :=
  World h (gen w) (drawn w) (os_reads w) (seedings w).

Definition M (A : Type) : Type := world → result (A * world).

#[global] Instance M_ret : MRet M := fun _ a w => Ok (a, w).
#[global] Instance M_bind : MBind M := fun _ _ f m w =>
  match m w with
  | Ok (a, w') => f a w'
  | Raise e => Raise e
  end.

Definition lift {A} (r : result A) : M A := fun w =>
  match r with
  | Ok a => Ok (a, w)
  | Raise e => Raise e
  end.

(** An address that holds no list is not a Python value: the model answers
    it with [TypeError].  No address the program computes is one. *)
Definition read (r : loc) : M (list string) := fun w =>
  match heap w !! r with
  | Some l => Ok (l, w)
  | None => Raise TypeError
  end.

Definition alloc (l : list string) : M loc := fun w =>
  Ok (length (heap w), set_heap (heap w ++ [l]) w).

(** [r.append(v)] *)
Definition append (r : loc) (v : string) : M unit := fun w =>
  match heap w !! r with
  | Some l => Ok (tt, set_heap (<[r := l ++ [v]]> (heap w)) w)
  | None => Raise TypeError
  end.

(** [r[x]] for an index [x] that is not negative *)
Definition get_item (r : loc) (x : nat) : M string :=
  l ← read r; lift (Py.index l (Z.of_nat x)).

(** [r[x] = v] for an index [x] that is not negative *)
Definition set_item (r : loc) (x : nat) (v : string) : M unit := fun w =>
  match heap w !! r with
  | Some l =>
      if decide (x < length l)%nat
      then Ok (tt, set_heap (<[r := <[x := v]> l]> (heap w)) w)
      else Raise IndexError
  | None => Raise TypeError
  end.

(** A Python float: a rational (every finite double is one), an infinity or
    a NaN.  The program compares floats, which is exact, and divides two
    integers (below). *)
Inductive pyfloat : Type :=
  | Finite (q : Q)
  | PosInf
  | NegInf
  | NaN.

Definition Qltb (x y : Q) : bool :=
  (Qnum x * Zpos (Qden y) <? Qnum y * Zpos (Qden x)).

(** [x < e] for a finite [x] *)
Definition float_lt (x : Q) (e : pyfloat) : bool :=
  match e with
  | Finite q => Qltb x q
  | PosInf => true
  | NegInf | NaN => false
  end.

(** ** Division of integers

    [a / b] on Python integers is a float: the double nearest to the
    quotient, a tie going to the even significand, and [OverflowError]
    where that is [2^1024] or more.  A double has a significand of 53 bits
    and an exponent of at least -1074; the result is kept as the rational
    it denotes, in lowest terms (a zero has no sign there). *)

(** [b * 2^e <= a], for [e] of either sign *)
Definition scaled_le (b e a : Z) : bool :=
  if 0 <=? e then b * 2 ^ e <=? a else b <=? a * 2 ^ (- e).

(** The binary exponent [e] of [a / b], for positive [a] and [b]:
    [2^e <= a / b < 2^(e+1)]. *)
Definition exponent (a b : Z) : Z :=
  let e0 := Z.log2 a - Z.log2 b in
  if scaled_le b e0 a then e0 else e0 - 1.

(** [n / d] rounded to the nearest integer, a tie to the even one, for a
    positive [d] *)
Definition round_half_even (n d : Z) : Z :=
  let k := n / d in
  let r := n mod d in
  if 2 * r <? d then k
  else if d <? 2 * r then k + 1
  else if Z.even k then k else k + 1.

(** [m * 2^q] *)
Definition dyadic (m q : Z) : Q :=
  if 0 <=? q then inject_Z (m * 2 ^ q) else Qred (m # Z.to_pos (2 ^ (- q))).

(** The double nearest to [a / b], for positive [a] and [b], as a
    significand [m] and an exponent [q]: [q] is the exponent of the last of
    the 53 bits, or -1074 where the quotient is below [2^-1022]. *)
Definition nearest_double (a b : Z) : Z * Z :=
  let q := Z.max (exponent a b - 52) (-1074) in
  let m := if 0 <=? q then round_half_even a (b * 2 ^ q)
           else round_half_even (a * 2 ^ (- q)) b in
  (m, q).

Definition float_div_pos (a b : Z) : result Q :=
  let '(m, q) := nearest_double a b in
  if (0 <=? q) && (2 ^ 1024 <=? m * 2 ^ q) then Raise OverflowError
  else Ok (dyadic m q).

(** [a / b] *)
Definition true_div (a b : Z) : result Q :=
  if b =? 0 then Raise ZeroDivisionError
  else if a =? 0 then Ok 0%Q
  else
    x ← float_div_pos (Z.abs a) (Z.abs b);
    Ok (if Z.sgn a =? Z.sgn b then x else - x)%Q.

Section Random.

(** The Mersenne Twister as a function: [genrand_res53 src i] is the 53-bit
    integer behind the [i]-th call of [random.random()] after the generator
    was seeded with [src]; bits above the 53rd are ignored. *)
Variable genrand_res53 : source → nat → N.

Definition nth_random (src : source) (i : nat) : Q :=
  Z.of_N (genrand_res53 src i mod 2 ^ 53) # (2 ^ 53).

(** [random.seed(a)] *)
Definition random_seed (a : option Z) : M unit := fun w =>
  Ok (tt,
      match a with
      | Some s =>
          World (heap w) (SeedInt s) 0 (os_reads w) (seedings w ++ [a])
      | None =>
          World (heap w) (SeedOS (os_reads w)) 0 (S (os_reads w))
                (seedings w ++ [a])
      end).

(** [random.random()] *)
Definition random_random : M Q := fun w =>
  Ok (nth_random (gen w) (drawn w),
      World (heap w) (gen w) (S (drawn w)) (os_reads w) (seedings w)).

(** The loop of [vaccinate_city]: [enumerate(new_city)] is at index [x] and
    has [todo] items left ([new_city[x] = 'V'] keeps the length); [item] is
    read from the list the loop writes. *)
Fixpoint vaccinate_loop (new_city : loc) (vaccine_effectiveness : pyfloat)
    (x todo : nat) : M unit :=
  match todo with
  | O => mret tt
  | S todo' =>
      item ← get_item new_city x;
      (if (item =? "S")%string then
         u ← random_random;
         if float_lt u vaccine_effectiveness
         then set_item new_city x "V"
         else mret tt
       else mret tt);;
      vaccinate_loop new_city vaccine_effectiveness (S x) todo'
  end.

Definition vaccinate_city (starting_city : loc) (vaccine_effectiveness : pyfloat)
  : M loc :=
  c ← read starting_city;
  new_city ← alloc c;
  items ← read new_city;
  vaccinate_loop new_city vaccine_effectiveness 0 (length items);;
  mret new_city.

(** The loop of [simulate_one_day] over the items [inds] of
    [starting_city], at index [i]. *)
Fixpoint simulate_loop (starting_city new_city : loc) (days_contagious : Z)
    (inds : list string) (i : Z) : M unit :=
  match inds with
  | [] => mret tt
  | _ :: inds' =>
      city ← read starting_city;
      st ← lift (advance_person_at_position city i days_contagious);
      append new_city st;;
      simulate_loop starting_city new_city days_contagious inds' (i + 1)
  end.

Definition simulate_one_day (starting_city : loc) (days_contagious : Z)
  : M loc :=
  new_city ← alloc [];
  inds ← read starting_city;
  simulate_loop starting_city new_city days_contagious inds 0;;
  mret new_city.

(** The loop of [run_simulation] with [n] values of [range(...)] left. *)
Fixpoint run_loop (n : nat) (ending_city : loc) (duration : Z)
    (days_contagious : Z) : M (loc * Z) :=
  match n with
  | O => mret (ending_city, duration)
  | S n' =>
      city ← read ending_city;
      if negb (Py.str_in "I" (Py.join city))
      then mret (ending_city, duration)
      else
        ending_city' ← simulate_one_day ending_city days_contagious;
        run_loop n' ending_city' (duration + 1) days_contagious
  end.

Definition run_simulation (starting_city : loc) (days_contagious : Z)
    (random_seed_ : option Z) (vaccine_effectiveness : pyfloat)
  : M (loc * Z) :=
  random_seed random_seed_;;
  ending_city ← vaccinate_city starting_city vaccine_effectiveness;
  city ← read starting_city;
  run_loop (Z.to_nat (Py.len city + days_contagious)) ending_city 0
           days_contagious.

(** [random_seed += 1] *)
Definition incr_seed (random_seed_ : option Z) : result (option Z) :=
  match random_seed_ with
  | Some s => Ok (Some (s + 1))
  | None => Raise TypeError
  end.

(** The loop of [calc_avg_days_to_zero_infections] with [n] trials left. *)
Fixpoint trials_loop (n : nat) (starting_city : loc) (days_contagious : Z)
    (random_seed_ : option Z) (vaccine_effectiveness : pyfloat)
    (duration_list : list Z) : M (list Z) :=
  match n with
  | O => mret duration_list
  | S n' =>
      res ← run_simulation starting_city days_contagious random_seed_
              vaccine_effectiveness;
      next_seed ← lift (incr_seed random_seed_);
      trials_loop n' starting_city days_contagious next_seed
                  vaccine_effectiveness (duration_list ++ [res.2])
  end.

(** [sum(l)] *)
Definition py_sum (l : list Z) : Z := foldl Z.add 0 l.

Definition calc_avg_days_to_zero_infections (starting_city : loc)
    (days_contagious : Z) (random_seed_ : option Z)
    (vaccine_effectiveness : pyfloat) (num_trials : Z) : M Q :=
  if negb (num_trials >? 0) then lift (Raise AssertionError) else
  duration_list ← trials_loop (Z.to_nat num_trials) starting_city
                    days_contagious random_seed_ vaccine_effectiveness [];
  lift (true_div (py_sum duration_list) (Py.len duration_list)).

End Random.

(** ** The validation of the city in [cmd] *)

(** [s[i]] for a string [s] and an index [i] that is not negative *)
Definition str_index (s : string) (i : nat) : result string :=
  match String.get i s with
  | Some c => Ok (String c EmptyString)
  | None => Raise IndexError
  end.

(** What the loop over the people does with one of them: [Rejected] prints
    the error message and makes [cmd] return [-1]. *)
Inductive verdict : Type :=
  | Accepted
  | Rejected.

Definition check_person (p : string) : result verdict :=
  c0 ← str_index p 0;
  if (c0 =? "I")%string then
    c1 ← str_index p 1;
    match Py.int c1 with
    | Ok _ => Ok Accepted
    | Raise ValueError => Ok Rejected
    | Raise e => Raise e
    end
  else if negb ((p =? "S")%string || (p =? "R")%string) then Ok Rejected
  else Ok Accepted.

Fixpoint check_city (city : list string) : result verdict :=
  match city with
  | [] => Ok Accepted
  | p :: rest =>
      v ← check_person p;
      match v with
      | Rejected => Ok Rejected
      | Accepted => check_city rest
      end
  end.

(** [[p.strip() for p in city.split(",")]] *)
Definition cmd_city (city : string) : list string :=
  Py.strip <$> Py.split "," city.

(** The city [cmd] hands to the simulation, [None] when it returns [-1]. *)
Definition cmd_validate (city : string) : result (option (list string)) :=
  v ← check_city (cmd_city city);
  match v with
  | Accepted => Ok (Some (cmd_city city))
  | Rejected => Ok None
  end.

(** ** The person states of the specification

    The tagged values of the specification, their textual form, and what the
    code reads off a string: [represents s p] when the tests of the code
    ([== "S"], ['I' in s], [int(s[1:])]) see the state [p] in [s]. *)

Module Spec.

Inductive person : Type :=
  | Susceptible
  | Recovered
  | Vaccinated
  | Infected (day_count : N).

Definition is_infected (p : person) : bool :=
  match p with Infected _ => true | _ => false end.

Definition render (p : person) : string :=
  match p with
  | Susceptible => "S"
  | Recovered => "R"
  | Vaccinated => "V"
  | Infected d => String "I" (Py.str (Z.of_N d))
  end.

Definition infected_at (snapshot : list person) (i : nat) : bool :=
  match snapshot !! i with
  | Some p => is_infected p
  | None => false
  end.

(** 4.2, case by case as the specification words it. *)
Definition has_infected_neighbor (snapshot : list person) (position : nat)
  : bool :=
  if decide (position = 0%nat) then infected_at snapshot 1
  else if decide (position = (length snapshot - 1)%nat)
       then infected_at snapshot (length snapshot - 2)
       else infected_at snapshot (position - 1)
            || infected_at snapshot (position + 1).

(** 4.3, the rule in priority order, for the person [p] at [position]. *)
Definition advance_state (snapshot : list person) (position : nat)
    (days_contagious : Z) (p : person) : person :=
  match p with
  | Infected d =>
      if Z.of_N d + 1 >=? days_contagious then Recovered
      else Infected (d + 1)
  | Susceptible =>
      if has_infected_neighbor snapshot position then Infected 0
      else Susceptible
  | Recovered => Recovered
  | Vaccinated => Vaccinated
  end.

Definition advance (snapshot : list person) (position : nat)
    (days_contagious : Z) : option person :=
  advance_state snapshot position days_contagious <$> snapshot !! position.

(** 4.4: every position advanced from the same snapshot. *)
Definition step (snapshot : list person) (days_contagious : Z) : list person :=
  imap (fun i p => advance_state snapshot i days_contagious p) snapshot.

End Spec.

Import Spec.

Inductive represents : string → person → Prop :=
  | rep_S : represents "S" Susceptible
  | rep_R : represents "R" Recovered
  | rep_V : represents "V" Vaccinated
  | rep_I t d :
      Py.int_opt t = Some (Z.of_N d) → represents (String "I" t) (Infected d).

Definition well_formed (city : list string) (snapshot : list person) : Prop :=
  Forall2 represents city snapshot.

(** ** Auxiliary definitions for the proofs *)

Definition is_digit (c : ascii) : bool :=
  match Py.digit_of c with Some _ => true | None => false end.

Fixpoint no_space (s : string) : bool :=
  match s with
  | EmptyString => true
  | String c r => negb (Py.is_space c) && no_space r
  end.

Fixpoint all_digits (s : string) : bool :=
  match s with
  | EmptyString => true
  | String c r => is_digit c && all_digits r
  end.

(** The value of the decimal numeral [d] read after the digits of [acc]. *)
Fixpoint uint_val (d : Decimal.uint) (acc : Z) : Z :=
  match d with
  | Decimal.Nil => acc
  | Decimal.D0 d => uint_val d (10 * acc)
  | Decimal.D1 d => uint_val d (10 * acc + 1)
  | Decimal.D2 d => uint_val d (10 * acc + 2)
  | Decimal.D3 d => uint_val d (10 * acc + 3)
  | Decimal.D4 d => uint_val d (10 * acc + 4)
  | Decimal.D5 d => uint_val d (10 * acc + 5)
  | Decimal.D6 d => uint_val d (10 * acc + 6)
  | Decimal.D7 d => uint_val d (10 * acc + 7)
  | Decimal.D8 d => uint_val d (10 * acc + 8)
  | Decimal.D9 d => uint_val d (10 * acc + 9)
  end.

(** Whether the string at index [i] of [city], if there is one, holds an
    ['I']. *)
Definition raw_infected_at (city : list string) (i : nat) : bool :=
  match city !! i with
  | Some s => Py.str_in "I" s
  | None => false
  end.

(** The neighbours of [position]: the one before it, if any, and the one
    after it. *)
Definition raw_neighbor_infected (city : list string) (position : nat) : bool :=
  match position with
  | O => false
  | S before => raw_infected_at city before
  end || raw_infected_at city (S position).

(** The items [simulate_one_day] appends from index [i] on, [n] of them. *)
Fixpoint advance_all (city : list string) (days_contagious : Z) (i : Z)
    (n : nat) : result (list string) :=
  match n with
  | O => Ok []
  | S n' =>
      st ← advance_person_at_position city i days_contagious;
      rest ← advance_all city days_contagious (i + 1) n';
      Ok (st :: rest)
  end.

(** The contents of the list [simulate_one_day] returns. *)
Definition next_city (city : list string) (days_contagious : Z)
  : result (list string) :=
  advance_all city days_contagious 0 (length city).

(** The number of ["S"] in [city]. *)
Fixpoint count_S (city : list string) : nat :=
  match city with
  | [] => 0
  | s :: r => ((if (s =? "S")%string then 1 else 0) + count_S r)%nat
  end.

(** The contents of the list [vaccinate_city] returns when the [k]-th number
    the generator gives from now on is [draws k]. *)
Fixpoint vaccinated (draws : nat → Q) (vaccine_effectiveness : pyfloat)
    (city : list string) (k : nat) : list string :=
  match city with
  | [] => []
  | s :: r =>
      if (s =? "S")%string then
        (if float_lt (draws k) vaccine_effectiveness then "V" else s)
        :: vaccinated draws vaccine_effectiveness r (S k)
      else s :: vaccinated draws vaccine_effectiveness r k
  end.

(** The contents of the final city and the duration that the loop of
    [run_simulation] reaches from the contents [city]. *)
Fixpoint run_val (n : nat) (city : list string) (duration : Z)
    (days_contagious : Z) : result (list string * Z) :=
  match n with
  | O => Ok (city, duration)
  | S n' =>
      if negb (Py.str_in "I" (Py.join city)) then Ok (city, duration)
      else
        city' ← next_city city days_contagious;
        run_val n' city' (duration + 1) days_contagious
  end.

Definition run_simulation_val (draws : nat → Q) (city : list string)
    (days_contagious : Z) (vaccine_effectiveness : pyfloat)
  : result (list string * Z) :=
  run_val (Z.to_nat (Py.len city + days_contagious))
          (vaccinated draws vaccine_effectiveness city 0) 0 days_contagious.

(** What [random.seed(a)] seeds the generator with in the world [w]. *)
Definition seeded (a : option Z) (w : world) : source :=
  match a with
  | Some s => SeedInt s
  | None => SeedOS (os_reads w)
  end.

(** The number of reads of OS entropy after [random.seed(a)]. *)
Definition reads_after (a : option Z) (w : world) : nat :=
  match a with
  | Some _ => os_reads w
  | None => S (os_reads w)
  end.

(** What a caller sees of a call that returns a city and a duration: the
    contents of the city, not its address. *)
Definition outcome (res : result (loc * Z * world)) : result (list string * Z) :=
  match res with
  | Ok (r, d, w) =>
      match heap w !! r with
      | Some c => Ok (c, d)
      | None => Raise TypeError
      end
  | Raise e => Raise e
  end.

(** What a caller sees of a call that returns a city: its contents. *)
Definition contents (res : result (loc * world)) : result (list string) :=
  match res with
  | Ok (r, w) =>
      match heap w !! r with
      | Some c => Ok c
      | None => Raise TypeError
      end
  | Raise e => Raise e
  end.

(** A world that holds the list [city] at address 0 and nothing else. *)
Definition world_of (city : list string) : world :=
  World [city] (SeedOS 0) 0 1 [].

(** The days elapsed of one call of the driver on a list of contents
    [city], from a store that holds nothing else. *)
Definition trial (genrand_res53 : source → nat → N) (city : list string)
    (days_contagious : Z) (seed : Z) (vaccine_effectiveness : pyfloat)
  : result Z :=
  snd <$> outcome (run_simulation genrand_res53 0%nat days_contagious
                     (Some seed) vaccine_effectiveness (world_of city)).

(** The seeds [start, start + 1, ...], [n] of them. *)
Definition seeds_from (start : Z) (n : nat) : list Z :=
  (fun i => start + Z.of_nat i) <$> seq 0 n.

(** [b * 2^e <= a] and [a < b * 2^e], the negative powers moved to the
    other side *)
Definition pow_le (b e a : Z) : Prop :=
  if 0 <=? e then b * 2 ^ e <= a else b <= a * 2 ^ (- e).

Definition pow_gt (b e a : Z) : Prop :=
  if 0 <=? e then a < b * 2 ^ e else a * 2 ^ (- e) < b.

(** ** A bound on the days left before the infection is over

    On the states of the specification: the susceptible people, the days an
    infected person still has before recovering, whether a susceptible
    person has an infected neighbour, and from these a number of days after
    which nobody is infected. *)

Definition is_susceptible (p : person) : bool :=
  match p with Susceptible => true | _ => false end.

Definition susceptibles (snapshot : list person) : nat :=
  sum_list_with (fun p => if is_susceptible p then 1%nat else 0%nat) snapshot.

Definition remaining (days_contagious : Z) (p : person) : nat :=
  match p with
  | Infected c => Z.to_nat (Z.max 1 (days_contagious - Z.of_N c))
  | _ => 0%nat
  end.

Definition max_remaining (days_contagious : Z) (snapshot : list person) : nat :=
  max_list_with (remaining days_contagious) snapshot.

Definition neighbor_infected (snapshot : list person) (position : nat) : bool :=
  match position with
  | O => false
  | S before => infected_at snapshot before
  end || infected_at snapshot (S position).

Definition exposed_at (snapshot : list person) (i : nat) : bool :=
  match snapshot !! i with
  | Some Susceptible => neighbor_infected snapshot i
  | _ => false
  end.

Definition exposed (snapshot : list person) : bool :=
  existsb (exposed_at snapshot) (seq 0 (length snapshot)).

Definition days_bound (days_contagious : Z) (snapshot : list person) : nat :=
  if exposed snapshot
  then (susceptibles snapshot + Z.to_nat days_contagious)%nat
  else max_remaining days_contagious snapshot.

(** An effectiveness no draw is below, and one every draw is below. *)
Definition never_effective (ve : pyfloat) : Prop :=
  match ve with
  | Finite q => (q <= 0)%Q
  | NegInf | NaN => True
  | PosInf => False
  end.

Definition always_effective (ve : pyfloat) : Prop :=
  match ve with
  | Finite q => (1 <= q)%Q
  | PosInf => True
  | NegInf | NaN => False
  end.

(** The tokens the validation of [cmd] lets through. *)
Definition token_ok (p : string) : Prop :=
  p = "S" ∨ p = "R"
  ∨ ∃ c t, p = String "I" (String c t) ∧ is_digit c = true.

(** [",".join(tokens)] *)
Fixpoint comma_join (tokens : list string) : string :=
  match tokens with
  | [] => EmptyString
  | [t] => t
  | t :: ts => String.append t (String "," (comma_join ts))
  end.

Fixpoint no_comma (s : string) : bool :=
  match s with
  | EmptyString => true
  | String c r => negb (Ascii.eqb c ",") && no_comma r
  end.

(** ** The rest of [cmd]

    What [cmd] writes with [print] is kept as the values it prints, not as
    text; the formatting of the average with [{:3.1f}] needs the double that
    Python computes and is not modelled. *)

Inductive task_type : Type :=
  | Single      (* --task-type single *)
  | Average.    (* --task-type average *)

Inductive printed : Type :=
  | PrintError                        (* print(emsg) *)
  | PrintRunningOne                   (* "Running one simulation..." *)
  | PrintFinalCity (city : list string)
  | PrintDays (days : Z)
  | PrintRunningMany                  (* "Running multiple trials..." *)
  | PrintAverage (num_trials : Z) (avg_days : Q).

Record cmd_outcome : Type := CmdOutcome {
  returned : Z;
  stdout : list printed;
  DEBUG : bool;
  after : world
}.

Section Cmd.

Variable genrand_res53 : source → nat → N.

Definition cmd (city : string) (days_contagious : Z) (random_seed_ : option Z)
    (vaccine_effectiveness : pyfloat) (num_trials : Z) (task : task_type)
    (debug : bool) (w : world) : result cmd_outcome :=
  '(city_list, w1) ← alloc (cmd_city city) w;
  v ← check_city (cmd_city city);
  match v with
  | Rejected => Ok (CmdOutcome (-1) [PrintError] debug w1)
  | Accepted =>
      match task with
      | Single =>
          '(final_city, num_days_simulated, w2) ←
            run_simulation genrand_res53 city_list days_contagious
              random_seed_ vaccine_effectiveness w1;
          final ← read final_city w2;
          Ok (CmdOutcome 0 [PrintRunningOne; PrintFinalCity final.1;
                            PrintDays num_days_simulated] debug w2)
      | Average =>
          '(avg_days, w2) ←
            calc_avg_days_to_zero_infections genrand_res53 city_list
              days_contagious random_seed_ vaccine_effectiveness num_trials
              w1;
          Ok (CmdOutcome 0 [PrintRunningMany;
                            PrintAverage num_trials avg_days] debug w2)
      end
  end.

End Cmd.

(** * Properties *)

(** ** The model on concrete inputs *)

Example int_ex1 : Py.int_opt "12" = Some 12. Proof. reflexivity. Qed.
Example int_ex2 : Py.int_opt " -1_0 " = Some (-10). Proof. reflexivity. Qed.
Example int_ex3 : Py.int_opt "1x" = None. Proof. reflexivity. Qed.
Example int_ex4 : Py.int_opt EmptyString = None. Proof. reflexivity. Qed.
Example int_ex5 : Py.int_opt "1__0" = None. Proof. reflexivity. Qed.
Example int_ex6 : Py.int_opt (String (ascii_of_nat 31) "3") = None
                  ∧ Py.strip (String (ascii_of_nat 31) "3") = "3"
                  ∧ Py.int_opt (String (ascii_of_nat 11) "3") = Some 3.
Proof. repeat split. Qed.
Example str_ex1 : Py.str 0 = "0" /\ Py.str 17 = "17" /\ Py.str (-4) = "-4".
Proof. repeat split. Qed.
Example split_ex1 : Py.split "," "S, I0,,R" = ["S"; " I0"; EmptyString; "R"].
Proof. reflexivity. Qed.
Example strip_ex1 : Py.strip "  I 0 " = "I 0". Proof. reflexivity. Qed.
Example index_ex1 : Py.index ["a"; "b"; "c"] (-1) = Ok "c". Proof. reflexivity. Qed.
Example index_ex2 : Py.index ["a"; "b"; "c"] 3 = Raise IndexError. Proof. reflexivity. Qed.
Example neighbor_ex1 : has_an_infected_neighbor ["S"; "I0"; "S"] 0 = Ok true.
Proof. reflexivity. Qed.
Example neighbor_ex2 : has_an_infected_neighbor ["S"] 0 = Ok false.
Proof. reflexivity. Qed.
Example neighbor_ex3 : has_an_infected_neighbor ["S"; "I0"] 1 = Raise AssertionError.
Proof. reflexivity. Qed.
Example neighbor_ex4 : has_an_infected_neighbor ["I1"; "R"; "S"] (-1) = Ok false.
Proof. reflexivity. Qed.
Example advance_ex1 : advance_person_at_position ["S"; "I0"; "S"] 1 2 = Ok "I1".
Proof. reflexivity. Qed.
Example advance_ex2 : advance_person_at_position ["S"; "I1"; "S"] 1 2 = Ok "R".
Proof. reflexivity. Qed.
Example advance_ex3 : advance_person_at_position ["S"; "I1x"] 1 2 = Raise ValueError.
Proof. reflexivity. Qed.
Example advance_ex4 : advance_person_at_position ["S"; "I-7"] 1 2 = Ok "I-6".
Proof. reflexivity. Qed.
Example cmd_ex1 : cmd_validate "S, I0 ,R" = Ok (Some ["S"; "I0"; "R"]).
Proof. reflexivity. Qed.
Example cmd_ex2 : cmd_validate "S,V" = Ok None.
Proof. reflexivity. Qed.
Example cmd_ex3 : cmd_validate "S,I1x" = Ok (Some ["S"; "I1x"]).
Proof. reflexivity. Qed.
Example cmd_ex4 : cmd_validate "S,,R" = Raise IndexError.
Proof. reflexivity. Qed.
Example cmd_ex5 : cmd_validate "I" = Raise IndexError.
Proof. reflexivity. Qed.

(** ** Python strings and integers *)

Lemma digit_not_space c : is_digit c = true → Py.is_space c = false.
Proof.
  destruct c as [[|] [|] [|] [|] [|] [|] [|] [|]]; vm_compute; congruence.
Qed.

Lemma all_digits_no_space s : all_digits s = true → no_space s = true.
Proof.
  induction s as [|c r IH]; simpl; [done|].
  intros [Hc Hr]%andb_prop. rewrite (digit_not_space c Hc). simpl. auto.
Qed.

Lemma lstrip_no_space s : no_space s = true → Py.lstrip s = s.
Proof.
  destruct s as [|c r]; simpl; [done|].
  intros [Hc _]%andb_prop. by destruct (Py.is_space c).
Qed.

Lemma rstrip_no_space s : no_space s = true → Py.rstrip s = s.
Proof.
  induction s as [|c r IH]; simpl; [done|].
  intros [Hc Hr]%andb_prop. rewrite (IH Hr).
  destruct r; [|done]. by destruct (Py.is_space c).
Qed.

Lemma strip_no_space s : no_space s = true → Py.strip s = s.
Proof.
  intros H. unfold Py.strip. rewrite (lstrip_no_space s H).
  by apply rstrip_no_space.
Qed.

Lemma int_space_is_space c : Py.is_space c = false → Py.is_int_space c = false.
Proof.
  destruct c as [[|] [|] [|] [|] [|] [|] [|] [|]]; vm_compute; congruence.
Qed.

Lemma int_strip_no_space s : no_space s = true → Py.int_strip s = s.
Proof.
  intros H. unfold Py.int_strip.
  assert (Py.int_lstrip s = s) as ->.
  { destruct s as [|c r]; [done|]. simpl in *.
    apply andb_prop in H as [Hc _]. apply negb_true_iff in Hc.
    by rewrite (int_space_is_space c Hc). }
  induction s as [|c r IH]; [done|]. simpl in *.
  apply andb_prop in H as [Hc Hr]. apply negb_true_iff in Hc.
  rewrite (IH Hr). destruct r; [|done].
  by rewrite (int_space_is_space c Hc).
Qed.

Lemma all_digits_of_uint d : all_digits (NilEmpty.string_of_uint d) = true.
Proof. induction d; simpl; auto. Qed.

Lemma int_digits_of_uint d acc :
  Py.int_digits (NilEmpty.string_of_uint d) acc = Some (uint_val d acc).
Proof.
  revert acc. induction d; intros acc; [done|..];
    simpl; rewrite IHd; do 2 f_equal; lia.
Qed.

Lemma int_unsigned_of_uint d :
  d ≠ Decimal.Nil →
  Py.int_unsigned (NilEmpty.string_of_uint d) = Some (uint_val d 0).
Proof.
  destruct d; [done|..]; intros _; simpl; rewrite int_digits_of_uint;
    do 2 f_equal; lia.
Qed.

Lemma uint_val_acc d acc :
  Z.pos (Pos.of_uint_acc d acc) = uint_val d (Z.pos acc).
Proof.
  revert acc. induction d; intros acc; simpl; [done|..];
    rewrite IHd; f_equal; lia.
Qed.

Lemma uint_val_of_uint d : Z.of_N (Pos.of_uint d) = uint_val d 0.
Proof.
  induction d; simpl; [done|assumption|..]; apply uint_val_acc.
Qed.

Lemma int_opt_digits s :
  all_digits s = true → Py.int_opt s = Py.int_unsigned s.
Proof.
  intros H. unfold Py.int_opt.
  rewrite (int_strip_no_space s (all_digits_no_space s H)).
  destruct s as [|c r]; [done|]. simpl in H. apply andb_prop in H as [Hc _].
  revert Hc. destruct c as [[|] [|] [|] [|] [|] [|] [|] [|]]; vm_compute; congruence.
Qed.

Lemma int_opt_pos p : Py.int_opt (Py.str (Z.pos p)) = Some (Z.pos p).
Proof.
  unfold Py.str. simpl.
  pose proof (DecimalPos.Unsigned.to_uint_nonnil p) as Hnil.
  assert (NilZero.string_of_uint (Pos.to_uint p)
          = NilEmpty.string_of_uint (Pos.to_uint p)) as ->.
  { by destruct (Pos.to_uint p). }
  rewrite int_opt_digits by apply all_digits_of_uint.
  rewrite int_unsigned_of_uint by done.
  by rewrite <- uint_val_of_uint, DecimalPos.Unsigned.of_to.
Qed.

Lemma int_opt_neg p : Py.int_opt (Py.str (Z.neg p)) = Some (Z.neg p).
Proof.
  unfold Py.str. simpl.
  pose proof (DecimalPos.Unsigned.to_uint_nonnil p) as Hnil.
  assert (NilZero.string_of_uint (Pos.to_uint p)
          = NilEmpty.string_of_uint (Pos.to_uint p)) as ->.
  { by destruct (Pos.to_uint p). }
  unfold Py.int_opt. rewrite int_strip_no_space.
  - rewrite int_unsigned_of_uint by done.
    by rewrite <- uint_val_of_uint, DecimalPos.Unsigned.of_to.
  - simpl. apply all_digits_no_space, all_digits_of_uint.
Qed.

(** [int(str(z)) == z] *)
Lemma int_str z : Py.int (Py.str z) = Ok z.
Proof.
  unfold Py.int. destruct z as [|p|p]; [done|..].
  - by rewrite int_opt_pos.
  - by rewrite int_opt_neg.
Qed.

Lemma index_nat {A} (l : list A) (i : nat) x :
  l !! i = Some x → Py.index l (Z.of_nat i) = Ok x.
Proof.
  intros H. pose proof (lookup_lt_Some _ _ _ H) as Hlt. unfold Py.index.
  destruct (Z.ltb_spec (Z.of_nat i) 0); [lia|].
  destruct (Z.ltb_spec (Z.of_nat i) 0); [lia|]. simpl.
  destruct (Z.leb_spec (Z.of_nat (length l)) (Z.of_nat i)); [lia|].
  by rewrite Nat2Z.id, H.
Qed.

Lemma index_out {A} (l : list A) (i : Z) :
  Z.of_nat (length l) <= i → Py.index l i = Raise IndexError.
Proof.
  intros H. unfold Py.index.
  destruct (Z.ltb_spec i 0); [lia|].
  destruct (Z.ltb_spec i 0); [lia|]. simpl.
  by destruct (Z.leb_spec (Z.of_nat (length l)) i); [|lia].
Qed.

Lemma index_minus_one {A} (l : list A) x :
  last l = Some x → Py.index l (-1) = Ok x.
Proof.
  intros H. unfold Py.index. rewrite last_lookup in H.
  pose proof (lookup_lt_Some _ _ _ H) as Hlt.
  assert (-1 + Z.of_nat (length l) = Z.of_nat (pred (length l))) as -> by lia.
  simpl. destruct (Z.ltb_spec (Z.of_nat (pred (length l))) 0); [lia|]. simpl.
  destruct (Z.leb_spec (Z.of_nat (length l)) (Z.of_nat (pred (length l)))); [lia|].
  by rewrite Nat2Z.id, H.
Qed.

Lemma index_nonneg {A} (l : list A) (i : Z) :
  0 <= i →
  Py.index l i = match l !! Z.to_nat i with
                 | Some x => Ok x
                 | None => Raise IndexError
                 end.
Proof.
  intros H. destruct (l !! Z.to_nat i) as [x|] eqn:E.
  - rewrite <- (Z2Nat.id i) by done. by apply index_nat.
  - apply index_out. apply lookup_ge_None in E. lia.
Qed.

(** ** Division of integers *)

Example true_div_ex1 :
  true_div 8 3 = Ok (6004799503160661 # 2251799813685248).
Proof. vm_compute. reflexivity. Qed.

Example true_div_ex2 : true_div 6 3 = Ok (2 # 1).
Proof. vm_compute. reflexivity. Qed.

Example true_div_ex3 : true_div (-7) 2 = Ok (-7 # 2).
Proof. vm_compute. reflexivity. Qed.

Example true_div_ex4 : true_div (2 ^ 55 + 6) 1 = Ok (inject_Z (2 ^ 55 + 8)).
Proof. vm_compute. reflexivity. Qed.

Example true_div_ex5 : true_div 1 0 = Raise ZeroDivisionError.
Proof. reflexivity. Qed.

Example true_div_ex6 :
  true_div (2 ^ 1024) 1 = Raise OverflowError
  ∧ true_div (2 ^ 1024 - 2 ^ 970) 1 = Raise OverflowError
  ∧ true_div (2 ^ 1024 - 2 ^ 970 - 1) 1 = Ok (inject_Z (2 ^ 1024 - 2 ^ 971)).
Proof. repeat split; vm_compute; reflexivity. Qed.

Example true_div_ex7 :
  true_div 1 (2 ^ 1074) = Ok (1 # 2 ^ 1074)
  ∧ true_div 1 (2 ^ 1075) = Ok 0%Q
  ∧ true_div 3 (2 ^ 1075) = Ok (1 # 2 ^ 1073).
Proof. repeat split; vm_compute; reflexivity. Qed.

Lemma round_half_even_cases n d :
  0 < d →
  ∃ k r, n = d * k + r ∧ 0 <= r < d
         ∧ (round_half_even n d = k ∧ 2 * r <= d
            ∨ round_half_even n d = k + 1 ∧ d <= 2 * r).
Proof.
  intros Hd. exists (n / d), (n mod d).
  split; [apply Z.div_mod; lia|]. split; [apply Z.mod_pos_bound; lia|].
  unfold round_half_even.
  destruct (Z.ltb_spec (2 * (n mod d)) d); [left; lia|].
  destruct (Z.ltb_spec d (2 * (n mod d))); [right; lia|].
  destruct (Z.even (n / d)); [left|right]; lia.
Qed.

Lemma round_half_even_error n d :
  0 < d → 2 * Z.abs (round_half_even n d * d - n) <= d.
Proof.
  intros Hd.
  destruct (round_half_even_cases n d Hd) as (k & r & -> & Hr & [[-> ?]|[-> ?]]);
    lia.
Qed.

Lemma round_half_even_le n d K :
  0 < d → n <= K * d → round_half_even n d <= K.
Proof.
  intros Hd Hn.
  destruct (round_half_even_cases n d Hd) as (k & r & -> & Hr & [[-> ?]|[-> ?]]);
    nia.
Qed.

Lemma round_half_even_ge n d K :
  0 < d → K * d <= n → K <= round_half_even n d.
Proof.
  intros Hd Hn.
  destruct (round_half_even_cases n d Hd) as (k & r & -> & Hr & [[-> ?]|[-> ?]]);
    nia.
Qed.

Lemma scaled_le_spec b e a :
  if scaled_le b e a then pow_le b e a else pow_gt b e a.
Proof.
  unfold scaled_le, pow_le, pow_gt. destruct (0 <=? e).
  - destruct (Z.leb_spec (b * 2 ^ e) a); lia.
  - destruct (Z.leb_spec b (a * 2 ^ (- e))); lia.
Qed.

Lemma pow2_split x y : 0 <= x → 0 <= y → 2 ^ (x + y) = 2 ^ x * 2 ^ y.
Proof. intros. by apply Z.pow_add_r. Qed.

Lemma pow2_pos x : 0 < 2 ^ x ∨ (x < 0 ∧ 2 ^ x = 0).
Proof.
  destruct (Z.le_gt_cases 0 x).
  - left. by apply Z.pow_pos_nonneg.
  - right. split; [done|]. by apply Z.pow_neg_r.
Qed.

Lemma exponent_spec a b :
  0 < a → 0 < b →
  pow_le b (exponent a b) a ∧ pow_gt b (exponent a b + 1) a.
Proof.
  intros Ha Hb.
  destruct (Z.log2_spec a Ha) as [Hal Hau].
  destruct (Z.log2_spec b Hb) as [Hbl Hbu].
  pose proof (Z.log2_nonneg a) as Hla. pose proof (Z.log2_nonneg b) as Hlb.
  rewrite <- !Z.add_1_r in *.
  unfold exponent.
  pose proof (scaled_le_spec b (Z.log2 a - Z.log2 b) a) as Hs.
  set (la := Z.log2 a) in *. set (lb := Z.log2 b) in *.
  destruct (scaled_le b (la - lb) a).
  - split; [done|]. unfold pow_gt.
    destruct (Z.leb_spec 0 (la - lb + 1)).
    + replace (la + 1) with (lb + (la - lb + 1)) in Hau by lia.
      rewrite pow2_split in Hau by lia.
      assert (0 < 2 ^ (la - lb + 1)) by (apply Z.pow_pos_nonneg; lia). nia.
    + replace lb with ((la + 1) + (- (la - lb + 1))) in Hbl by lia.
      rewrite pow2_split in Hbl by lia.
      assert (0 < 2 ^ (- (la - lb + 1))) by (apply Z.pow_pos_nonneg; lia). nia.
  - replace (la - lb - 1 + 1) with (la - lb) by lia. split; [|done].
    unfold pow_le. destruct (Z.leb_spec 0 (la - lb - 1)).
    + replace la with ((lb + 1) + (la - lb - 1)) in Hal by lia.
      rewrite pow2_split in Hal by lia.
      assert (0 < 2 ^ (la - lb - 1)) by (apply Z.pow_pos_nonneg; lia). nia.
    + replace (lb + 1) with (la + (- (la - lb - 1))) in Hbu by lia.
      rewrite pow2_split in Hbu by lia.
      assert (0 < 2 ^ (- (la - lb - 1))) by (apply Z.pow_pos_nonneg; lia). nia.
Qed.

Lemma Qabs_scaled_error (m a P b : Z) :
  0 < P → 0 < b →
  2 ^ 53 * Z.abs (m * b - a * P) <= a * P →
  (Qabs ((m # Z.to_pos P) - inject_Z a / inject_Z b)
   <= inject_Z a / inject_Z b * (1 # 2 ^ 53))%Q.
Proof.
  intros HP Hb H.
  destruct b as [|pb|pb]; [lia| |lia]. destruct P as [|pP|pP]; [lia| |lia].
  rewrite <- (Qmake_Qdiv a pb). cbn [Z.to_pos].
  apply Qabs_Qle_condition.
  unfold Qle, Qminus, Qplus, Qopp, Qmult. cbn [Qnum Qden].
  rewrite !Pos2Z.inj_mul.
  change (2 ^ 53) with 9007199254740992 in H.
  change (Z.pos (2 ^ 53)) with 9007199254740992.
  split; nia.
Qed.

Lemma dyadic_nonneg m q : 0 <= m → (0 <= dyadic m q)%Q.
Proof.
  intros Hm. unfold dyadic. destruct (Z.leb_spec 0 q).
  - change 0%Q with (inject_Z 0). rewrite <- Zle_Qle.
    apply Z.mul_nonneg_nonneg; [done|]. apply Z.pow_nonneg; lia.
  - rewrite Qred_correct. unfold Qle. cbn [Qnum Qden]. lia.
Qed.

Lemma float_div_pos_nonneg a b x :
  0 < a → 0 < b → float_div_pos a b = Ok x → (0 <= x)%Q.
Proof.
  intros Ha Hb. unfold float_div_pos, nearest_double.
  set (q := Z.max _ _). set (m := if 0 <=? q then _ else _).
  assert (0 <= m) as Hm.
  { unfold m. destruct (Z.leb_spec 0 q).
    - apply round_half_even_ge; [|lia].
      apply Z.mul_pos_pos; [done|]. apply Z.pow_pos_nonneg; lia.
    - apply round_half_even_ge; [done|].
      assert (0 <= 2 ^ (- q)) by (apply Z.pow_nonneg; lia). nia. }
  destruct (_ && _); [done|]. intros [= <-]. by apply dyadic_nonneg.
Qed.

Lemma float_div_pos_le a b K x :
  0 < a → 0 < b → a <= K * b → K < 2 ^ 53 →
  float_div_pos a b = Ok x → (x <= inject_Z K)%Q.
Proof.
  intros Ha Hb HK HK53.
  destruct (exponent_spec a b Ha Hb) as [Hlo _].
  unfold float_div_pos, nearest_double.
  set (e := exponent a b) in *.
  assert (e <= 52) as He.
  { destruct (Z.le_gt_cases e 52) as [|Hgt]; [done|]. unfold pow_le in Hlo.
    destruct (Z.leb_spec 0 e); [|lia].
    assert (2 ^ 53 <= 2 ^ e) by (apply Z.pow_le_mono_r; lia).
    set (E := 2 ^ e) in *. set (C := 2 ^ 53) in *. nia. }
  set (q := Z.max _ _). assert (q <= 0) as Hq by lia.
  destruct (Z.leb_spec 0 q) as [Hq0|Hq0].
  - assert (q = 0) as -> by lia. rewrite Z.pow_0_r, !Z.mul_1_r.
    destruct (_ && _); [done|]. intros [= <-]. unfold dyadic.
    cbn [Z.leb Z.compare]. rewrite Z.pow_0_r, Z.mul_1_r, <- Zle_Qle.
    by apply round_half_even_le.
  - cbn [andb]. intros [= <-]. unfold dyadic.
    destruct (Z.leb_spec 0 q); [lia|]. rewrite Qred_correct.
    assert (0 < 2 ^ (- q)) as HP by (apply Z.pow_pos_nonneg; lia).
    unfold Qle. cbn [Qnum Qden inject_Z]. rewrite Z2Pos.id, Z.mul_1_r by done.
    apply round_half_even_le; [done|]. set (P := 2 ^ (- q)) in *. nia.
Qed.

Lemma float_div_pos_accurate a b :
  0 < a → 0 < b → a < 2 ^ 1023 * b → b <= 2 ^ 1022 * a →
  ∃ x, float_div_pos a b = Ok x
       ∧ (Qabs (x - inject_Z a / inject_Z b)
          <= inject_Z a / inject_Z b * (1 # 2 ^ 53))%Q.
Proof.
  intros Ha Hb Hhigh Hlow.
  destruct (exponent_spec a b Ha Hb) as [Hlo Hhi].
  unfold float_div_pos, nearest_double.
  set (e := exponent a b) in *.
  assert (e <= 1022) as He.
  { destruct (Z.le_gt_cases e 1022) as [|Hgt]; [done|]. unfold pow_le in Hlo.
    destruct (Z.leb_spec 0 e); [|lia].
    assert (2 ^ 1023 <= 2 ^ e) by (apply Z.pow_le_mono_r; lia).
    set (E := 2 ^ e) in *. set (C := 2 ^ 1023) in *. nia. }
  assert (- 1022 <= e) as He'.
  { destruct (Z.le_gt_cases (- 1022) e) as [|Hgt]; [done|].
    unfold pow_gt in Hhi. destruct (Z.leb_spec 0 (e + 1)); [lia|].
    assert (2 ^ 1022 <= 2 ^ (- (e + 1))) by (apply Z.pow_le_mono_r; lia).
    set (E := 2 ^ (- (e + 1))) in *. set (C := 2 ^ 1022) in *. nia. }
  rewrite Z.max_l by lia.
  destruct (Z.leb_spec 0 (e - 52)) as [Hq|Hq].
  - assert (0 < 2 ^ (e - 52)) as HP by (apply Z.pow_pos_nonneg; lia).
    unfold pow_le, pow_gt in *.
    destruct (Z.leb_spec 0 e); [|lia]. destruct (Z.leb_spec 0 (e + 1)); [|lia].
    replace (e + 1) with ((e - 52) + 53) in Hhi by lia.
    replace e with ((e - 52) + 52) in Hlo at 1 by lia.
    rewrite pow2_split in Hhi, Hlo by lia.
    set (m := round_half_even _ _).
    pose proof (round_half_even_error a (b * 2 ^ (e - 52))) as Herr.
    pose proof (round_half_even_le a (b * 2 ^ (e - 52)) (2 ^ 53)) as Hm.
    fold m in Herr, Hm.
    assert (2 ^ (e - 52) <= 2 ^ 970) as Hq970 by (apply Z.pow_le_mono_r; lia).
    assert (2 ^ 53 * 2 ^ 970 < 2 ^ 1024) as Hc by done.
    assert (0 < 2 ^ 53) as Hc53 by done.
    assert (2 ^ 53 = 2 * 2 ^ 52) as Hc52 by done.
    set (P := 2 ^ (e - 52)) in *. set (C := 2 ^ 1024) in *.
    set (C53 := 2 ^ 53) in *. set (C52 := 2 ^ 52) in *.
    set (C970 := 2 ^ 970) in *.
    assert (m <= C53) as Hm' by (apply Hm; nia).
    destruct (Z.leb_spec C (m * P)) as [Hov|_]; [nia|]. cbn [andb].
    eexists. split; [done|]. unfold dyadic. destruct (Z.leb_spec 0 (e - 52)); [|lia].
    apply (Qabs_scaled_error (m * P) a 1 b); [done..|]. fold C53. nia.
  - cbn [andb]. eexists. split; [done|]. unfold dyadic.
    destruct (Z.leb_spec 0 (e - 52)); [lia|]. rewrite Qred_correct.
    assert (0 < 2 ^ (- (e - 52))) as HP by (apply Z.pow_pos_nonneg; lia).
    set (m := round_half_even _ _).
    pose proof (round_half_even_error (a * 2 ^ (- (e - 52))) b Hb) as Herr.
    fold m in Herr.
    apply Qabs_scaled_error; [done..|].
    assert (b * 2 ^ 52 <= a * 2 ^ (- (e - 52))) as Hscale.
    { unfold pow_le in Hlo. destruct (Z.leb_spec 0 e).
      - replace 52 with (e + - (e - 52)) at 1 by lia.
        rewrite pow2_split by lia.
        set (P := 2 ^ (- (e - 52))) in *. set (E := 2 ^ e) in *. nia.
      - replace (- (e - 52)) with (- e + 52) by lia.
        rewrite pow2_split by lia.
        assert (0 < 2 ^ 52) by done.
        set (E := 2 ^ (- e)) in *. set (C := 2 ^ 52) in *. nia. }
    assert (2 ^ 53 = 2 * 2 ^ 52) as Hc52 by done.
    set (P := 2 ^ (- (e - 52))) in *. set (C53 := 2 ^ 53) in *.
    set (C52 := 2 ^ 52) in *. nia.
Qed.

Lemma true_div_pos a b :
  0 < a → 0 < b → true_div a b = float_div_pos a b.
Proof.
  intros Ha Hb. unfold true_div.
  destruct (Z.eqb_spec b 0); [lia|]. destruct (Z.eqb_spec a 0); [lia|].
  rewrite !Z.abs_eq, !Z.sgn_pos by lia. cbn [Z.eqb Pos.eqb].
  by destruct (float_div_pos a b).
Qed.

Lemma true_div_zero b : 0 < b → true_div 0 b = Ok 0%Q.
Proof. intros Hb. unfold true_div. by destruct (Z.eqb_spec b 0); [lia|]. Qed.

Lemma true_div_nonneg a b x :
  0 <= a → 0 < b → true_div a b = Ok x → (0 <= x)%Q.
Proof.
  intros Ha Hb. destruct (Z.eq_dec a 0) as [->|].
  - rewrite true_div_zero by done. by intros [= <-].
  - rewrite true_div_pos by lia. apply float_div_pos_nonneg; lia.
Qed.

Lemma true_div_le a b K x :
  0 <= a → 0 < b → a <= K * b → K < 2 ^ 53 →
  true_div a b = Ok x → (x <= inject_Z K)%Q.
Proof.
  intros Ha Hb HK HK53. destruct (Z.eq_dec a 0) as [->|].
  - rewrite true_div_zero by done. intros [= <-].
    change 0%Q with (inject_Z 0). rewrite <- Zle_Qle. nia.
  - rewrite true_div_pos by lia. apply float_div_pos_le; [lia|done..].
Qed.

Lemma true_div_accurate a b :
  0 <= a → 0 < b → a < 2 ^ 1023 * b → b <= 2 ^ 1022 →
  ∃ x, true_div a b = Ok x
       ∧ (Qabs (x - inject_Z a / inject_Z b)
          <= inject_Z a / inject_Z b * (1 # 2 ^ 53))%Q.
Proof.
  intros Ha Hb Hhigh Hlow. destruct (Z.eq_dec a 0) as [->|].
  - rewrite true_div_zero by done. exists 0%Q. split; [done|].
    destruct b as [|pb|pb]; [lia| |lia].
    rewrite <- (Qmake_Qdiv 0 pb). by vm_compute.
  - rewrite true_div_pos by lia. apply float_div_pos_accurate; [lia|done..|].
    assert (0 < 2 ^ 1022) by done. set (C := 2 ^ 1022) in *. nia.
Qed.

(** ** The neighbour rule *)

Lemma has_an_infected_neighbor_raw (city : list string) (position : nat) :
  city !! position = Some "S" →
  has_an_infected_neighbor city (Z.of_nat position)
  = Ok (raw_neighbor_infected city position).
Proof.
  intros HS. pose proof (lookup_lt_Some _ _ _ HS) as Hlt.
  unfold has_an_infected_neighbor, raw_neighbor_infected, raw_infected_at.
  rewrite (index_nat _ _ _ HS). cbn [mbind result_bind String.eqb negb].
  change ("S" =? "S")%string with true. cbn [negb].
  unfold Py.len. destruct position as [|before].
  - (* the first index *)
    change (Z.of_nat 0 =? 0) with true. cbn [andb orb].
    destruct (Z.gtb_spec (Z.of_nat (length city)) 1) as [Hlen|Hlen].
    + destruct (lookup_lt_is_Some_2 city 1) as [s1 Hs1]; [lia|].
      rewrite Hs1. change 1 with (Z.of_nat 1). rewrite (index_nat _ _ _ Hs1).
      cbn. by destruct (Py.str_in "I" s1).
    + cbn [and_then mbind result_bind].
      assert (length city = 1%nat) as Hone by lia.
      rewrite Hone. change (Z.of_nat 0 =? Z.of_nat 1 - 1) with true.
      change (Z.of_nat 1 - 2) with (-1).
      assert (last city = Some "S") as Hlast.
      { rewrite last_lookup, Hone. exact HS. }
      rewrite (index_minus_one _ _ Hlast). cbn.
      by rewrite lookup_ge_None_2 by lia.
  - (* a later index *)
    destruct (Z.eqb_spec (Z.of_nat (S before)) 0) as [|_]; [lia|].
    cbn [andb and_then mbind result_bind].
    destruct (lookup_lt_is_Some_2 city before) as [sb Hsb]; [lia|].
    rewrite Hsb.
    destruct (Z.eqb_spec (Z.of_nat (S before)) (Z.of_nat (length city) - 1))
      as [Hend|Hmid].
    + (* the last index *)
      replace (Z.of_nat (length city) - 2) with (Z.of_nat before) by lia.
      rewrite (index_nat _ _ _ Hsb). cbn.
      rewrite (lookup_ge_None_2 city (S (S before))) by lia.
      by destruct (Py.str_in "I" sb).
    + (* in between *)
      cbn [and_then mbind result_bind].
      destruct (Z.gtb_spec (Z.of_nat (S before)) 0) as [_|]; [|lia].
      destruct (lookup_lt_is_Some_2 city (S (S before))) as [sa Hsa]; [lia|].
      rewrite Hsa.
      replace (Z.of_nat (S before) - 1) with (Z.of_nat before) by lia.
      replace (Z.of_nat (S before) + 1) with (Z.of_nat (S (S before))) by lia.
      rewrite (index_nat _ _ _ Hsb), (index_nat _ _ _ Hsa). cbn.
      by destruct (Py.str_in "I" sb), (Py.str_in "I" sa).
Qed.

(** ** What the code reads off a well-formed string *)

Lemma represents_render p : represents (render p) p.
Proof.
  destruct p; try constructor.
  pose proof (int_str (Z.of_N day_count)) as H. unfold Py.int in H.
  by destruct (Py.int_opt (Py.str (Z.of_N day_count))) as [z|]; simplify_eq.
Qed.

Lemma str_in_I_head t : Py.str_in "I" (String "I" t) = true.
Proof. by destruct t. Qed.

Lemma represents_str_in s p : represents s p → Py.str_in "I" s = is_infected p.
Proof. destruct 1; try done. apply str_in_I_head. Qed.

Lemma represents_is_S s p :
  represents s p → ("S" =? s)%string = true → p = Susceptible.
Proof. by destruct 1. Qed.

Lemma represents_days s d :
  represents s (Infected d) → Py.int (Py.tail s) = Ok (Z.of_N d).
Proof. inversion 1 as [| | |t d' Ht]; subst. unfold Py.int. simpl. by rewrite Ht. Qed.

Lemma represents_inj s p q : represents s p → represents s q → p = q.
Proof.
  destruct 1; inversion 1; subst; try done.
  f_equal. apply N2Z.inj. congruence.
Qed.

Lemma well_formed_length city snapshot :
  well_formed city snapshot → length city = length snapshot.
Proof. apply Forall2_length. Qed.

Lemma well_formed_lookup city snapshot i p :
  well_formed city snapshot → snapshot !! i = Some p →
  ∃ s, city !! i = Some s ∧ represents s p.
Proof. intros H Hp. by apply (Forall2_lookup_r _ _ _ _ _ H Hp). Qed.

Lemma well_formed_infected_at city snapshot i :
  well_formed city snapshot →
  raw_infected_at city i = infected_at snapshot i.
Proof.
  intros H. unfold raw_infected_at, infected_at.
  destruct (snapshot !! i) as [p|] eqn:E.
  - destruct (well_formed_lookup _ _ _ _ H E) as (s & -> & Hs).
    by apply represents_str_in.
  - apply lookup_ge_None in E. rewrite lookup_ge_None_2; [done|].
    by rewrite (well_formed_length _ _ H).
Qed.

Lemma well_formed_neighbor city snapshot position :
  well_formed city snapshot →
  (position < length snapshot)%nat →
  raw_neighbor_infected city position
  = has_infected_neighbor snapshot position.
Proof.
  intros H Hlt. unfold raw_neighbor_infected, has_infected_neighbor.
  destruct position as [|before];
    rewrite !(well_formed_infected_at _ _ _ H); [done|].
  case_decide; [done|]. case_decide as Hlast.
  - replace (length snapshot - 2)%nat with before by lia.
    unfold infected_at at 2. rewrite lookup_ge_None_2 by lia.
    by rewrite orb_false_r.
  - by replace (S before - 1)%nat with before by lia;
      replace (S before + 1)%nat with (S (S before)) by lia.
Qed.

Lemma join_I_str d :
  Py.join ["I"; Py.str d] = String "I" (Py.str d).
Proof.
  unfold Py.join. simpl. f_equal.
  induction (Py.str d) as [|c r IH]; simpl; by f_equal.
Qed.

(** ** The transition of one person *)

Lemma advance_person_at_position_spec city snapshot position dc p :
  well_formed city snapshot →
  snapshot !! position = Some p →
  ∃ s', advance_person_at_position city (Z.of_nat position) dc = Ok s'
        ∧ represents s' (advance_state snapshot position dc p).
Proof.
  intros Hwf Hp.
  destruct (well_formed_lookup _ _ _ _ Hwf Hp) as (s & Hs & Hrep).
  pose proof (lookup_lt_Some _ _ _ Hp) as Hlt.
  unfold advance_person_at_position, days_plus_one.
  rewrite (index_nat _ _ _ Hs). cbn [mbind result_bind].
  rewrite (represents_str_in _ _ Hrep).
  destruct p as [| | |d]; cbn [is_infected and_then advance_state].
  - (* susceptible *)
    inversion Hrep; subst. change ("S" =? "S")%string with true.
    cbn [and_then mbind result_bind].
    rewrite (has_an_infected_neighbor_raw _ _ Hs).
    rewrite (well_formed_neighbor _ _ _ Hwf Hlt). cbn [mbind result_bind].
    destruct (has_infected_neighbor snapshot position); cbn.
    + eexists; split; [done|]. by apply (rep_I "0" 0%N).
    + eexists; split; [done|]. constructor.
  - inversion Hrep; subst. cbn. eexists; split; [done|]. constructor.
  - inversion Hrep; subst. cbn. eexists; split; [done|]. constructor.
  - (* infected *)
    rewrite (represents_days _ _ Hrep). cbn [mbind result_bind].
    destruct (Z.geb_spec (Z.of_N d + 1) dc) as [Hge|Hlt'].
    + eexists; split; [done|]. constructor.
    + destruct (Z.ltb_spec (Z.of_N d + 1) dc) as [_|]; [|lia].
      rewrite join_I_str. eexists; split; [done|].
      constructor. replace (Z.of_N d + 1) with (Z.of_N (d + 1)) by lia.
      pose proof (int_str (Z.of_N (d + 1))) as H. unfold Py.int in H.
      by destruct (Py.int_opt (Py.str (Z.of_N (d + 1)))); simplify_eq.
Qed.

(** ** The store *)

Lemma set_heap_id w : set_heap (heap w) w = w.
Proof. by destruct w. Qed.

Lemma set_heap_set_heap h h' w : set_heap h (set_heap h' w) = set_heap h w.
Proof. done. Qed.

Lemma bind_ok {A B} (m : M A) (f : A → M B) w a w' :
  m w = Ok (a, w') → (m ≫= f) w = f a w'.
Proof. intros H. unfold mbind, M_bind. by rewrite H. Qed.

Lemma bind_raise {A B} (m : M A) (f : A → M B) w e :
  m w = Raise e → (m ≫= f) w = Raise e.
Proof. intros H. unfold mbind, M_bind. by rewrite H. Qed.

Lemma read_ok r w l : heap w !! r = Some l → read r w = Ok (l, w).
Proof. intros H. unfold read. by rewrite H. Qed.

Lemma append_ok r v w l :
  heap w !! r = Some l →
  append r v w = Ok (tt, set_heap (<[r := l ++ [v]]> (heap w)) w).
Proof. intros H. unfold append. by rewrite H. Qed.

(** ** One day *)

Lemma simulate_loop_spec sc nc dc city inds :
  sc ≠ nc →
  ∀ i acc w,
    heap w !! sc = Some city →
    heap w !! nc = Some acc →
    simulate_loop sc nc dc inds i w
    = match advance_all city dc i (length inds) with
      | Ok sts => Ok (tt, set_heap (<[nc := acc ++ sts]> (heap w)) w)
      | Raise e => Raise e
      end.
Proof.
  intros Hne. induction inds as [|ind inds IH]; intros i acc w Hsc Hnc.
  - cbn. rewrite app_nil_r, list_insert_id by done. by rewrite set_heap_id.
  - cbn [simulate_loop length advance_all].
    rewrite (bind_ok _ _ _ _ _ (read_ok _ _ _ Hsc)).
    destruct (advance_person_at_position city i dc) as [st|e] eqn:Hadv;
      [|done].
    rewrite (bind_ok (lift (Ok st)) _ w st w) by done.
    rewrite (bind_ok _ _ _ _ _ (append_ok _ st _ _ Hnc)).
    pose proof (lookup_lt_Some _ _ _ Hnc) as Hlt.
    rewrite (IH (i + 1) (acc ++ [st])); cbn [heap set_heap].
    + cbn [mbind result_bind].
      destruct (advance_all city dc (i + 1) (length inds)) as [sts|e]; [|done].
      by rewrite list_insert_insert_eq, <- app_assoc.
    + by rewrite list_lookup_insert_ne.
    + by rewrite list_lookup_insert_eq.
Qed.

Lemma simulate_one_day_spec r dc city w :
  heap w !! r = Some city →
  simulate_one_day r dc w
  = match next_city city dc with
    | Ok city' => Ok (length (heap w), set_heap (heap w ++ [city']) w)
    | Raise e => Raise e
    end.
Proof.
  intros Hr. pose proof (lookup_lt_Some _ _ _ Hr) as Hlt.
  unfold simulate_one_day, next_city.
  rewrite (bind_ok (alloc []) _ w (length (heap w))
             (set_heap (heap w ++ [[]]) w)) by done.
  assert ((heap w ++ [[]]) !! r = Some city) as Hr'.
  { by rewrite lookup_app_l. }
  rewrite (bind_ok _ _ _ _ _ (read_ok r (set_heap _ w) city Hr')).
  unfold mbind at 1, M_bind at 1.
  rewrite (simulate_loop_spec r (length (heap w)) dc city city) with (acc := []);
    [|lia|done|by apply list_lookup_middle].
  destruct (advance_all city dc 0 (length city)) as [sts|e]; [|done].
  cbn [heap set_heap app]. unfold mret, M_ret. do 2 f_equal.
  rewrite insert_app_r_alt by done. by rewrite Nat.sub_diag.
Qed.

(** ** Vaccination *)

Lemma vaccinated_length draws ve city k :
  length (vaccinated draws ve city k) = length city.
Proof.
  revert k. induction city as [|s r IH]; intros k; simpl; [done|].
  destruct (s =? "S")%string; simpl; by rewrite IH.
Qed.

Section Vaccination.

Variable genrand_res53 : source → nat → N.

Lemma vaccinate_loop_spec nc ve suf :
  ∀ pre w,
    heap w !! nc = Some (pre ++ suf) →
    vaccinate_loop genrand_res53 nc ve (length pre) (length suf) w
    = Ok (tt,
          World (<[nc := pre ++ vaccinated (nth_random genrand_res53 (gen w))
                                  ve suf (drawn w)]> (heap w))
                (gen w) (drawn w + count_S suf) (os_reads w) (seedings w)).
Proof.
  induction suf as [|item suf IH]; intros pre w Hnc.
  - cbn. rewrite list_insert_id by done. rewrite Nat.add_0_r. by destruct w.
  - cbn [vaccinate_loop length vaccinated count_S].
    pose proof (lookup_lt_Some _ _ _ Hnc) as Hlt.
    assert ((pre ++ item :: suf) !! length pre = Some item) as Hitem.
    { by apply list_lookup_middle. }
    assert (get_item nc (length pre) w = Ok (item, w)) as Hget.
    { unfold get_item. rewrite (bind_ok _ _ _ _ _ (read_ok _ _ _ Hnc)).
      by rewrite (index_nat _ _ _ Hitem). }
    rewrite (bind_ok _ _ _ _ _ Hget).
    set (w1 := World (heap w) (gen w) (S (drawn w)) (os_reads w) (seedings w)).
    destruct (item =? "S")%string eqn:HS.
    + destruct (float_lt (nth_random genrand_res53 (gen w) (drawn w)) ve)
        eqn:Hlt'.
      * (* the draw is below the effectiveness: the item is overwritten *)
        assert (set_item nc (length pre) "V" w1
                = Ok (tt, set_heap (<[nc := pre ++ "V" :: suf]> (heap w)) w1))
          as Hset.
        { unfold set_item. cbn [heap w1]. rewrite Hnc.
          rewrite decide_True by (rewrite length_app; simpl; lia).
          rewrite insert_app_r_alt by done. by rewrite Nat.sub_diag. }
        rewrite (bind_ok _ _ w tt
                   (set_heap (<[nc := pre ++ "V" :: suf]> (heap w)) w1)).
        2:{ rewrite (bind_ok (random_random genrand_res53) _ w _ w1 eq_refl).
            by rewrite Hlt'. }
        replace (S (length pre)) with (length (pre ++ ["V"]))
          by (rewrite length_app; simpl; lia).
        rewrite IH; cbn [heap gen drawn os_reads seedings set_heap w1].
        -- rewrite list_insert_insert_eq, <- app_assoc.
           replace (drawn w + (1 + count_S suf))%nat
             with (S (drawn w) + count_S suf)%nat by lia.
           done.
        -- rewrite list_lookup_insert_eq by done. by rewrite <- app_assoc.
      * rewrite (bind_ok _ _ w tt w1).
        2:{ rewrite (bind_ok (random_random genrand_res53) _ w _ w1 eq_refl).
            by rewrite Hlt'. }
        replace (S (length pre)) with (length (pre ++ [item]))
          by (rewrite length_app; simpl; lia).
        rewrite IH; cbn [heap gen drawn os_reads seedings w1].
        -- rewrite <- app_assoc.
           replace (drawn w + (1 + count_S suf))%nat
             with (S (drawn w) + count_S suf)%nat by lia.
           done.
        -- by rewrite <- app_assoc.
    + rewrite (bind_ok (mret tt) _ w tt w eq_refl).
      replace (S (length pre)) with (length (pre ++ [item]))
        by (rewrite length_app; simpl; lia).
      rewrite IH.
      -- by rewrite <- app_assoc.
      -- by rewrite <- app_assoc.
Qed.

Lemma vaccinate_city_spec r ve city w :
  heap w !! r = Some city →
  vaccinate_city genrand_res53 r ve w
  = Ok (length (heap w),
        World (heap w ++ [vaccinated (nth_random genrand_res53 (gen w)) ve
                            city (drawn w)])
              (gen w) (drawn w + count_S city) (os_reads w) (seedings w)).
Proof.
  intros Hr. pose proof (lookup_lt_Some _ _ _ Hr) as Hlt.
  unfold vaccinate_city.
  rewrite (bind_ok _ _ _ _ _ (read_ok _ _ _ Hr)).
  rewrite (bind_ok (alloc city) _ w (length (heap w))
             (set_heap (heap w ++ [city]) w)) by done.
  assert (heap (set_heap (heap w ++ [city]) w) !! length (heap w) = Some city)
    as Hnew by (by apply list_lookup_middle).
  rewrite (bind_ok _ _ _ _ _ (read_ok _ _ _ Hnew)).
  unfold mbind at 1, M_bind at 1.
  rewrite (vaccinate_loop_spec (length (heap w)) ve city []) by done.
  cbn [heap gen drawn os_reads seedings set_heap app]. unfold mret, M_ret.
  do 2 f_equal. rewrite insert_app_r_alt by done. by rewrite Nat.sub_diag.
Qed.

End Vaccination.

(** ** The driver *)

Lemma run_loop_spec dc n :
  ∀ r city d w,
    heap w !! r = Some city →
    match run_val n city d dc with
    | Ok (city', d') =>
        ∃ r' ext,
          run_loop n r d dc w = Ok (r', d', set_heap (heap w ++ ext) w)
          ∧ (heap w ++ ext) !! r' = Some city'
    | Raise e => run_loop n r d dc w = Raise e
    end.
Proof.
  induction n as [|n IH]; intros r city d w Hr.
  - cbn. exists r, []. rewrite app_nil_r, set_heap_id. done.
  - cbn [run_val run_loop].
    rewrite (bind_ok _ _ _ _ _ (read_ok _ _ _ Hr)).
    destruct (negb (Py.str_in "I" (Py.join city))).
    + exists r, []. rewrite app_nil_r, set_heap_id. done.
    + pose proof (simulate_one_day_spec r dc city w Hr) as Hday.
      destruct (next_city city dc) as [city1|e]; cbn [mbind result_bind].
      * rewrite (bind_ok _ _ _ _ _ Hday).
        specialize (IH (length (heap w)) city1 (d + 1)
                      (set_heap (heap w ++ [city1]) w)).
        cbn [heap set_heap] in IH.
        specialize (IH (list_lookup_middle _ _ _ _ eq_refl)).
        destruct (run_val n city1 (d + 1) dc) as [[city' d']|e]; [|done].
        destruct IH as (r' & ext & Hrun & Hr').
        exists r', (city1 :: ext). rewrite Hrun.
        rewrite <- app_assoc in Hr'. split; [|done].
        unfold set_heap; cbn. by rewrite <- app_assoc.
      * by rewrite (bind_raise _ _ _ _ Hday).
Qed.

Section Driver.

Variable genrand_res53 : source → nat → N.

Lemma run_simulation_spec r dc a ve city w :
  heap w !! r = Some city →
  match run_simulation_val (nth_random genrand_res53 (seeded a w)) city dc ve
  with
  | Ok (city', d') =>
      ∃ r' ext,
        run_simulation genrand_res53 r dc a ve w
        = Ok (r', d',
              World (heap w ++ ext) (seeded a w) (count_S city)
                    (reads_after a w)
                    (seedings w ++ [a]))
        ∧ (heap w ++ ext) !! r' = Some city'
  | Raise e => run_simulation genrand_res53 r dc a ve w = Raise e
  end.
Proof.
  intros Hr. pose proof (lookup_lt_Some _ _ _ Hr) as Hlt.
  unfold run_simulation, run_simulation_val.
  set (w1 := World (heap w) (seeded a w) 0
                   (reads_after a w)
                   (seedings w ++ [a])).
  assert (random_seed a w = Ok (tt, w1)) as Hseed by (by destruct a).
  rewrite (bind_ok _ _ _ _ _ Hseed).
  rewrite (bind_ok _ _ _ _ _ (vaccinate_city_spec genrand_res53 r ve city w1 Hr)).
  cbn [heap gen drawn os_reads seedings w1 Nat.add].
  set (vc := vaccinated _ ve city 0).
  set (w2 := World (heap w ++ [vc]) _ _ _ _).
  assert (heap w2 !! r = Some city) as Hr2 by (by apply lookup_app_l_Some).
  rewrite (bind_ok _ _ _ _ _ (read_ok _ _ _ Hr2)).
  pose proof (run_loop_spec dc (Z.to_nat (Py.len city + dc))
                (length (heap w)) vc 0 w2
                (list_lookup_middle _ _ _ _ eq_refl)) as Hloop.
  destruct (run_val _ vc 0 dc) as [[city' d']|e]; [|done].
  destruct Hloop as (r' & ext & Hrun & Hr').
  exists r', (vc :: ext). rewrite Hrun. cbn [heap w2] in Hr' |- *.
  rewrite <- app_assoc in Hr'. split; [|done].
  unfold set_heap; cbn. by rewrite <- app_assoc.
Qed.

End Driver.

(** ** Well-formed cities stay well-formed *)

Lemma advance_all_spec dc city snapshot suf :
  well_formed city snapshot →
  ∀ pre,
    snapshot = pre ++ suf →
    ∃ sts,
      advance_all city dc (Z.of_nat (length pre)) (length suf) = Ok sts
      ∧ Forall2 represents sts
          (imap (fun j p => advance_state snapshot (length pre + j) dc p) suf).
Proof.
  intros Hwf. induction suf as [|p suf IH]; intros pre Hsnap.
  - exists []. split; [done|constructor].
  - cbn [length advance_all imap].
    assert (snapshot !! length pre = Some p) as Hp.
    { subst snapshot. by apply list_lookup_middle. }
    destruct (advance_person_at_position_spec _ _ _ dc _ Hwf Hp)
      as (s' & -> & Hs').
    cbn [mbind result_bind].
    destruct (IH (pre ++ [p])) as (sts & Hsts & Hall).
    { by rewrite <- app_assoc. }
    rewrite length_app in Hsts. cbn [length] in Hsts.
    replace (Z.of_nat (length pre) + 1) with (Z.of_nat (length pre + 1)) by lia.
    rewrite Hsts. cbn [mbind result_bind]. eexists; split; [done|].
    constructor.
    + by rewrite Nat.add_0_r.
    + eapply Forall2_impl; [|done].
      assert (imap (fun j q => advance_state snapshot
                                 (length (pre ++ [p]) + j) dc q) suf
              = imap ((fun j q => advance_state snapshot (length pre + j) dc q)
                        ∘ S) suf) as <-; [|done].
      apply imap_ext. intros j q _. simpl. rewrite length_app. simpl.
      f_equal. lia.
Qed.

Lemma next_city_spec dc city snapshot :
  well_formed city snapshot →
  ∃ city', next_city city dc = Ok city'
           ∧ well_formed city' (step snapshot dc).
Proof.
  intros Hwf. unfold next_city. rewrite (well_formed_length _ _ Hwf).
  destruct (advance_all_spec dc city snapshot snapshot Hwf [] eq_refl)
    as (sts & Hsts & Hall).
  exists sts. split; [done|]. exact Hall.
Qed.

Lemma step_length snapshot dc : length (step snapshot dc) = length snapshot.
Proof. apply length_imap. Qed.

Lemma run_val_spec dc n :
  ∀ city snapshot d,
    well_formed city snapshot →
    ∃ city' snapshot' d',
      run_val n city d dc = Ok (city', d')
      ∧ well_formed city' snapshot'
      ∧ length city' = length city
      ∧ d <= d' <= d + Z.of_nat n.
Proof.
  induction n as [|n IH]; intros city snapshot d Hwf.
  - exists city, snapshot, d. cbn. repeat split; [done|lia..].
  - cbn [run_val]. destruct (negb (Py.str_in "I" (Py.join city))).
    + exists city, snapshot, d. repeat split; [done|lia..].
    + destruct (next_city_spec dc _ _ Hwf) as (city1 & -> & Hwf1).
      cbn [mbind result_bind].
      destruct (IH city1 _ (d + 1) Hwf1) as (city' & snap' & d' & -> & ? & Hlen & ?).
      exists city', snap', d'. repeat split; [done|..|lia|lia].
      rewrite Hlen, (well_formed_length _ _ Hwf1), step_length.
      by rewrite (well_formed_length _ _ Hwf).
Qed.

Lemma vaccinated_well_formed draws ve city snapshot k :
  well_formed city snapshot →
  ∃ snapshot', well_formed (vaccinated draws ve city k) snapshot'.
Proof.
  intros Hwf. revert k.
  induction Hwf as [|s p city snapshot Hs _ IH]; intros k.
  - exists []. constructor.
  - simpl. destruct (s =? "S")%string eqn:HS.
    + destruct (IH (S k)) as (snap' & Hsnap').
      destruct (float_lt (draws k) ve).
      * exists (Vaccinated :: snap'). constructor; [constructor|done].
      * exists (p :: snap'). by constructor.
    + destruct (IH k) as (snap' & Hsnap'). exists (p :: snap'). by constructor.
Qed.

Lemma run_simulation_val_ok draws city snapshot dc ve :
  well_formed city snapshot →
  ∃ city' snapshot' d',
    run_simulation_val draws city dc ve = Ok (city', d')
    ∧ well_formed city' snapshot'
    ∧ length city' = length city
    ∧ 0 <= d' <= Z.max 0 (Py.len city + dc).
Proof.
  intros Hwf. unfold run_simulation_val.
  destruct (vaccinated_well_formed draws ve city snapshot 0 Hwf) as (sv & Hsv).
  destruct (run_val_spec dc (Z.to_nat (Py.len city + dc)) _ _ 0 Hsv)
    as (city' & snap' & d' & Hrun & Hwf' & Hlen & Hd).
  exists city', snap', d'. rewrite vaccinated_length in Hlen.
  repeat split; [done..|lia|lia].
Qed.

Section Outcomes.

Variable genrand_res53 : source → nat → N.

(** The outcome of [run_simulation] is a function of the contents of the
    city, of the parameters and of what the generator is seeded with. *)
Lemma outcome_run_simulation r dc a ve city w :
  heap w !! r = Some city →
  outcome (run_simulation genrand_res53 r dc a ve w)
  = run_simulation_val (nth_random genrand_res53 (seeded a w)) city dc ve.
Proof.
  intros Hr.
  pose proof (run_simulation_spec genrand_res53 r dc a ve city w Hr) as H.
  destruct (run_simulation_val _ city dc ve) as [[city' d']|e].
  - destruct H as (r' & ext & -> & Hr'). cbn. by rewrite Hr'.
  - by rewrite H.
Qed.

Lemma contents_simulate_one_day r dc city w :
  heap w !! r = Some city →
  contents (simulate_one_day r dc w) = next_city city dc.
Proof.
  intros Hr. rewrite (simulate_one_day_spec r dc city w Hr).
  destruct (next_city city dc) as [city'|e]; [|done].
  cbn. by rewrite list_lookup_middle.
Qed.

Lemma nth_random_range src k :
  (0 <= nth_random genrand_res53 src k)%Q
  ∧ (nth_random genrand_res53 src k < 1)%Q.
Proof.
  unfold nth_random, Qle, Qlt. cbn [Qnum Qden].
  pose proof (N.mod_lt (genrand_res53 src k) (2 ^ 53) ltac:(done)) as Hlt.
  apply N2Z.inj_lt in Hlt. change (Z.of_N (2 ^ 53)) with (Z.pos (2 ^ 53)) in Hlt.
  pose proof (N2Z.is_nonneg (genrand_res53 src k mod 2 ^ 53)) as Hge.
  generalize dependent (Z.of_N (genrand_res53 src k mod 2 ^ 53)).
  generalize (Z.pos (2 ^ 53)). intros; lia.
Qed.

Lemma float_lt_zero src k :
  float_lt (nth_random genrand_res53 src k) (Finite 0) = false.
Proof.
  unfold float_lt, Qltb, nth_random. cbn [Qnum Qden].
  apply Z.ltb_ge.
  pose proof (N2Z.is_nonneg (genrand_res53 src k mod 2 ^ 53)) as Hge.
  generalize dependent (Z.of_N (genrand_res53 src k mod 2 ^ 53)).
  intros; lia.
Qed.

Lemma vaccinated_zero src city k :
  vaccinated (nth_random genrand_res53 src) (Finite 0) city k = city.
Proof.
  revert k. induction city as [|s city IH]; intros k; [done|].
  cbn [vaccinated]. rewrite float_lt_zero, !IH. by destruct (s =? "S")%string.
Qed.

End Outcomes.

Lemma vaccinated_lookup draws ve city :
  ∀ k i s,
    city !! i = Some s →
    vaccinated draws ve city k !! i
    = Some (if (s =? "S")%string
            then if float_lt (draws (k + count_S (take i city))%nat) ve
                 then "V" else "S"
            else s).
Proof.
  induction city as [|s0 city IH]; intros k i s Hi; [done|].
  destruct i as [|i]; simplify_eq/=.
  - rewrite Nat.add_0_r. destruct (s =? "S")%string eqn:HS; [|done].
    apply String.eqb_eq in HS. by subst.
  - destruct (s0 =? "S")%string; simpl; rewrite (IH _ _ _ Hi); [|done].
    by replace (k + S (count_S (take i city)))%nat
      with (S k + count_S (take i city))%nat by lia.
Qed.

(** ** Cities without infection *)

Lemma advance_uninfected city dc i s :
  Forall (fun s => Py.str_in "I" s = false) city →
  city !! i = Some s →
  advance_person_at_position city (Z.of_nat i) dc = Ok s.
Proof.
  intros Hall Hi. pose proof (proj1 (Forall_lookup _ _) Hall) as Hno.
  unfold advance_person_at_position.
  rewrite (index_nat _ _ _ Hi). cbn [mbind result_bind].
  rewrite (Hno _ _ Hi). cbn [and_then].
  destruct ("S" =? s)%string eqn:HS; [|done].
  apply String.eqb_eq in HS. subst s. cbn [and_then].
  rewrite (has_an_infected_neighbor_raw _ _ Hi). cbn [mbind result_bind].
  assert (∀ j, raw_infected_at city j = false) as Hraw.
  { intros j. unfold raw_infected_at. destruct (city !! j) eqn:E; [|done].
    by apply (Hno _ _ E). }
  unfold raw_neighbor_infected. rewrite Hraw.
  by destruct i; rewrite ?Hraw.
Qed.

Lemma advance_all_uninfected city dc suf :
  Forall (fun s => Py.str_in "I" s = false) city →
  ∀ pre, city = pre ++ suf →
    advance_all city dc (Z.of_nat (length pre)) (length suf) = Ok suf.
Proof.
  intros Hall. induction suf as [|s suf IH]; intros pre Hcity; [done|].
  cbn [length advance_all].
  rewrite (advance_uninfected city dc (length pre) s Hall)
    by (subst city; by apply list_lookup_middle).
  cbn [mbind result_bind].
  replace (Z.of_nat (length pre) + 1) with (Z.of_nat (length (pre ++ [s])))
    by (rewrite length_app; simpl; lia).
  rewrite IH by (by rewrite <- app_assoc). done.
Qed.

Lemma next_city_uninfected city dc :
  Forall (fun s => Py.str_in "I" s = false) city →
  next_city city dc = Ok city.
Proof. intros Hall. by apply (advance_all_uninfected city dc city Hall []). Qed.

Lemma advance_all_lookup city dc n :
  ∀ i sts,
    advance_all city dc i n = Ok sts →
    length sts = n
    ∧ ∀ j s, sts !! j = Some s →
             advance_person_at_position city (i + Z.of_nat j) dc = Ok s.
Proof.
  induction n as [|n IH]; intros i sts Hsts; cbn in Hsts.
  - simplify_eq. split; [done|]. by intros j s.
  - destruct (advance_person_at_position city i dc) as [st|] eqn:Hst;
      cbn in Hsts; [|done].
    destruct (advance_all city dc (i + 1) n) as [rest|] eqn:Hrest;
      cbn in Hsts; [|done].
    simplify_eq. destruct (IH _ _ Hrest) as [Hlen Hlook].
    split; [simpl; by rewrite Hlen|].
    intros [|j] s Hj; simplify_eq/=.
    + by rewrite Z.add_0_r.
    + rewrite <- (Hlook _ _ Hj). f_equal. lia.
Qed.

(** * The claims *)

(** ** C1: the scenario S, I0, S *)

(** C1, as stated, fails: from ["S"; "I0"; "S"] with [days_contagious = 2]
    and no vaccination, the second day does not give ["R"; "R"; "R"] and
    [run_simulation] does not return 2 days.  The two people infected on day
    1 are ["I0"] then, and [0 + 1 >= 2] is false. *)
Lemma scenario_two_days_counterexample :
  contents (simulate_one_day 0%nat 2 (world_of ["I0"; "I1"; "I0"]))
  ≠ Ok ["R"; "R"; "R"]
  ∧ snd <$> outcome (run_simulation (fun _ _ => 0%N) 0%nat 2 None (Finite 0)
                       (world_of ["S"; "I0"; "S"]))
    ≠ Ok 2.
Proof. split; vm_compute; discriminate. Qed.

(** C1, amended: from ["S"; "I0"; "S"] with [days_contagious = 2] and
    [vaccine_effectiveness = 0], whatever the seed and the generator, day 1
    gives ["I0"; "I1"; "I0"], day 2 gives ["I1"; "R"; "I1"], day 3 gives
    ["R"; "R"; "R"], and [run_simulation] returns that city and 3 days. *)
Theorem scenario_three_days genrand_res53 (a : option Z) (w : world) (r : loc) :
  heap w !! r = Some ["S"; "I0"; "S"] →
  (∀ w1 r1, heap w1 !! r1 = Some ["S"; "I0"; "S"] →
     contents (simulate_one_day r1 2 w1) = Ok ["I0"; "I1"; "I0"])
  ∧ (∀ w2 r2, heap w2 !! r2 = Some ["I0"; "I1"; "I0"] →
       contents (simulate_one_day r2 2 w2) = Ok ["I1"; "R"; "I1"])
  ∧ (∀ w3 r3, heap w3 !! r3 = Some ["I1"; "R"; "I1"] →
       contents (simulate_one_day r3 2 w3) = Ok ["R"; "R"; "R"])
  ∧ outcome (run_simulation genrand_res53 r 2 a (Finite 0) w)
    = Ok (["R"; "R"; "R"], 3).
Proof.
  intros Hr. repeat split.
  - intros w1 r1 H1. by rewrite (contents_simulate_one_day _ _ _ _ H1).
  - intros w2 r2 H2. by rewrite (contents_simulate_one_day _ _ _ _ H2).
  - intros w3 r3 H3. by rewrite (contents_simulate_one_day _ _ _ _ H3).
  - rewrite (outcome_run_simulation genrand_res53 _ _ _ _ _ _ Hr).
    unfold run_simulation_val. by rewrite vaccinated_zero.
Qed.

Lemma scenario_three_days_witness :
  heap (world_of ["S"; "I0"; "S"]) !! 0%nat = Some ["S"; "I0"; "S"]
  ∧ outcome (run_simulation (fun _ _ => 0%N) 0%nat 2 (Some 7) (Finite 0)
               (world_of ["S"; "I0"; "S"]))
    = Ok (["R"; "R"; "R"], 3).
Proof.
  split; [reflexivity|].
  apply (scenario_three_days (fun _ _ => 0%N) (Some 7)
           (world_of ["S"; "I0"; "S"]) 0%nat).
  reflexivity.
Defined.

(** ** C2: the validation of the people *)


(** The token ["I1x"] passes, and the simulation then raises on it: [cmd]
    converts [p[1]], not [p[1:]]. *)
Lemma check_person_I1x :
  check_person "I1x" = Ok Accepted
  ∧ advance_person_at_position ["I1x"] 0 2 = Raise ValueError.
Proof. split; reflexivity. Qed.




(** ** C3: termination and the bound on the duration *)

(** Outside the domain of the specification, where [N + days_contagious] is
    negative: [range] of a negative number is empty, the loop body never
    runs and the duration is 0. *)
Lemma run_simulation_negative_bound :
  ∃ d, snd <$> outcome (run_simulation (fun _ _ => 0%N) 0%nat (-5) (Some 0)
                          (Finite 0) (world_of ["S"; "I0"; "S"]))
       = Ok d
       ∧ ¬ d <= Py.len ["S"; "I0"; "S"] + -5.
Proof. exists 0. split; [reflexivity|]. vm_compute. by intros H. Qed.

(** The bound reached with infection present: the city and the days reached
    are returned. *)
Lemma run_simulation_bound_reached :
  outcome (run_simulation (fun _ _ => 0%N) 0%nat (-2) (Some 0) (Finite 0)
             (world_of ["S"; "S"; "I0"]))
  = Ok (["S"; "I0"; "R"], 1).
Proof. reflexivity. Qed.

Lemma run_simulation_returns genrand_res53 city snapshot dc a ve w r :
  well_formed city snapshot →
  heap w !! r = Some city →
  ∃ r' d w' city' snapshot',
    run_simulation genrand_res53 r dc a ve w = Ok (r', d, w')
    ∧ heap w' !! r' = Some city'
    ∧ well_formed city' snapshot'
    ∧ length city' = length city
    ∧ 0 <= d <= Z.max 0 (Py.len city + dc).
Proof.
  intros Hwf Hr.
  pose proof (run_simulation_spec genrand_res53 r dc a ve city w Hr) as Hrun.
  destruct (run_simulation_val_ok (nth_random genrand_res53 (seeded a w))
              city snapshot dc ve Hwf)
    as (city' & snap' & d' & Hval & Hwf' & Hlen & Hd).
  rewrite Hval in Hrun. destruct Hrun as (r' & ext & Hrun & Hr').
  by eexists r', d', _, city', snap'.
Qed.



(** ** C4: determinism *)

(** C4: with an integer seed, whatever the store and the state of the
    generator before the call, two calls of [run_simulation] on cities of
    the same contents with the same parameters have the same outcome: the
    same final contents and the same duration (or the same exception). *)
Theorem run_simulation_deterministic genrand_res53 city dc (seed : Z) ve
    w1 r1 w2 r2 :
  heap w1 !! r1 = Some city →
  heap w2 !! r2 = Some city →
  outcome (run_simulation genrand_res53 r1 dc (Some seed) ve w1)
  = outcome (run_simulation genrand_res53 r2 dc (Some seed) ve w2).
Proof.
  intros H1 H2.
  rewrite (outcome_run_simulation genrand_res53 _ _ _ _ _ _ H1).
  by rewrite (outcome_run_simulation genrand_res53 _ _ _ _ _ _ H2).
Qed.

Lemma run_simulation_deterministic_witness :
  heap (World [["S"; "I0"; "S"; "S"]] (SeedOS 0) 0 1 []) !! 0%nat
  = Some ["S"; "I0"; "S"; "S"]
  ∧ heap (World [["R"]; ["S"; "I0"; "S"; "S"]] (SeedInt 3) 9 4 [Some 3])
      !! 1%nat
    = Some ["S"; "I0"; "S"; "S"]
  ∧ outcome (run_simulation (fun _ i => N.of_nat i * 2 ^ 51)%N 0%nat 2
               (Some 11) (Finite (1 # 2))
               (World [["S"; "I0"; "S"; "S"]] (SeedOS 0) 0 1 []))
    = outcome (run_simulation (fun _ i => N.of_nat i * 2 ^ 51)%N 1%nat 2
                 (Some 11) (Finite (1 # 2))
                 (World [["R"]; ["S"; "I0"; "S"; "S"]] (SeedInt 3) 9 4
                        [Some 3])).
Proof.
  split; [reflexivity|]. split; [reflexivity|].
  apply (run_simulation_deterministic _ ["S"; "I0"; "S"; "S"]); reflexivity.
Defined.

(** Without a seed the outcome depends on the entropy the generator reads. *)
Lemma run_simulation_unseeded :
  let g := fun src (_ : nat) =>
             match src with SeedOS 1 => 0%N | _ => (2 ^ 52)%N end in
  outcome (run_simulation g 0%nat 2 None (Finite (1 # 4))
             (World [["S"; "I0"]] (SeedOS 0) 0 1 []))
  ≠ outcome (run_simulation g 0%nat 2 None (Finite (1 # 4))
               (World [["S"; "I0"]] (SeedOS 0) 0 2 [])).
Proof. vm_compute. discriminate. Qed.

(** ** C5: the average over the trials *)

Lemma seeds_from_S start n :
  seeds_from start (S n) = start :: seeds_from (start + 1) n.
Proof.
  unfold seeds_from. cbn [seq fmap list_fmap]. rewrite Z.add_0_r. f_equal.
  rewrite <- fmap_S_seq, <- list_fmap_compose.
  apply list_fmap_ext. intros _ i _. simpl. lia.
Qed.

Lemma foldl_add_foldr l : ∀ a, foldl Z.add a l = a + foldr Z.add 0 l.
Proof.
  induction l as [|x l IH]; intros a; simpl; [lia|]. rewrite IH. lia.
Qed.

Lemma py_sum_foldr l : py_sum l = foldr Z.add 0 l.
Proof. unfold py_sum. by rewrite foldl_add_foldr. Qed.

Lemma sum_bounds B ds :
  Forall (fun d => 0 <= d <= B) ds →
  0 <= foldr Z.add 0 ds <= Z.of_nat (length ds) * B.
Proof.
  induction 1 as [|d ds Hd _ IH]; [simpl; lia|].
  cbn [foldr length]. nia.
Qed.

Section Trials.

Variable genrand_res53 : source → nat → N.

Lemma trial_spec city snapshot dc seed ve w r :
  well_formed city snapshot →
  heap w !! r = Some city →
  ∃ r' d ext,
    run_simulation genrand_res53 r dc (Some seed) ve w
    = Ok (r', d, World (heap w ++ ext) (SeedInt seed) (count_S city)
                       (os_reads w) (seedings w ++ [Some seed]))
    ∧ trial genrand_res53 city dc seed ve = Ok d
    ∧ 0 <= d <= Z.max 0 (Py.len city + dc).
Proof.
  intros Hwf Hr.
  pose proof (run_simulation_spec genrand_res53 r dc (Some seed) ve city w Hr)
    as Hrun.
  unfold trial.
  rewrite (outcome_run_simulation genrand_res53 0%nat dc (Some seed) ve city
             (world_of city) eq_refl).
  cbn [seeded] in *.
  destruct (run_simulation_val_ok (nth_random genrand_res53 (SeedInt seed))
              city snapshot dc ve Hwf)
    as (city' & snap' & d' & Hval & _ & _ & Hd).
  rewrite Hval in *. destruct Hrun as (r' & ext & Hrun & _).
  by exists r', d', ext.
Qed.

Lemma trial_days city snapshot dc seed ve d :
  well_formed city snapshot →
  trial genrand_res53 city dc seed ve = Ok d →
  0 <= d <= Z.max 0 (Py.len city + dc).
Proof.
  intros Hwf H.
  destruct (trial_spec city snapshot dc seed ve (world_of city) 0%nat Hwf
              eq_refl) as (r' & d' & ext & _ & Htrial & Hd).
  by assert (d = d') as -> by congruence.
Qed.

Lemma trials_days city snapshot dc ve seeds ds :
  well_formed city snapshot →
  Forall2 (fun s d => trial genrand_res53 city dc s ve = Ok d) seeds ds →
  Forall (fun d => 0 <= d <= Z.max 0 (Py.len city + dc)) ds.
Proof.
  intros Hwf. induction 1 as [|s d seeds ds H _ IH]; constructor; [|done].
  by apply (trial_days city snapshot dc s ve).
Qed.

Lemma trials_loop_spec city snapshot dc ve r n :
  well_formed city snapshot →
  ∀ seed dl w,
    heap w !! r = Some city →
    ∃ ds w',
      trials_loop genrand_res53 n r dc (Some seed) ve dl w = Ok (dl ++ ds, w')
      ∧ seedings w' = seedings w ++ (Some <$> seeds_from seed n)
      ∧ heap w' !! r = Some city
      ∧ Forall2 (fun s d => trial genrand_res53 city dc s ve = Ok d)
                (seeds_from seed n) ds.
Proof.
  intros Hwf. induction n as [|n IH]; intros seed dl w Hr.
  - exists [], w. cbn. rewrite !app_nil_r. repeat split; [done|constructor].
  - cbn [trials_loop].
    destruct (trial_spec city snapshot dc seed ve w r Hwf Hr)
      as (r' & d & ext & Hrun & Htrial & _).
    rewrite (bind_ok _ _ _ _ _ Hrun). cbn [snd].
    rewrite (bind_ok (lift (incr_seed (Some seed))) _ _
               (Some (seed + 1)) _ eq_refl).
    set (w1 := World (heap w ++ ext) _ _ _ _).
    destruct (IH (seed + 1) (dl ++ [d]) w1) as (ds & w' & Hloop & Hseeds & Hr' & Hall).
    { by apply lookup_app_l_Some. }
    exists (d :: ds), w'. rewrite Hloop, Hseeds.
    rewrite seeds_from_S. cbn [seedings w1 fmap list_fmap].
    rewrite <- !app_assoc. repeat split; [done|by constructor].
Qed.

(** C5: a [num_trials] that is not positive fails the assertion; for a
    positive one, on a well-formed city, the driver is called with the seeds
    [start_seed, start_seed + 1, ..., start_seed + num_trials - 1] in that
    order and no other (what [random.seed] logs), each time on the same
    contents of [starting_city], which no call changes, and the result is
    the sum of the [num_trials] durations divided by [num_trials] as Python
    divides integers: the double nearest to the mean.  Where
    [N + days_contagious] is below [2^1023] and [num_trials] at most
    [2^1022] the division does not overflow, and the result is the mean up
    to a relative error of [2^-53]. *)
Theorem calc_avg_days_to_zero_infections_spec city snapshot dc start_seed ve
    num_trials w r :
  well_formed city snapshot →
  heap w !! r = Some city →
  (num_trials <= 0 →
   calc_avg_days_to_zero_infections genrand_res53 r dc (Some start_seed) ve
     num_trials w = Raise AssertionError)
  ∧ (num_trials > 0 →
     ∃ w' durations,
       seedings w'
       = seedings w ++ (Some <$> seeds_from start_seed (Z.to_nat num_trials))
       ∧ Forall2 (fun s d => trial genrand_res53 city dc s ve = Ok d)
                 (seeds_from start_seed (Z.to_nat num_trials)) durations
       ∧ heap w' !! r = Some city
       ∧ calc_avg_days_to_zero_infections genrand_res53 r dc
           (Some start_seed) ve num_trials w
         = (avg ← true_div (foldr Z.add 0 durations) num_trials;
            Ok (avg, w'))
       ∧ (Py.len city + dc < 2 ^ 1023 → num_trials <= 2 ^ 1022 →
          ∃ avg,
            calc_avg_days_to_zero_infections genrand_res53 r dc
              (Some start_seed) ve num_trials w = Ok (avg, w')
            ∧ (Qabs (avg - inject_Z (foldr Z.add 0%Z durations)
                            / inject_Z num_trials)
               <= inject_Z (foldr Z.add 0%Z durations) / inject_Z num_trials
                  * (1 # 2 ^ 53))%Q)).
Proof.
  intros Hwf Hr. unfold calc_avg_days_to_zero_infections. split.
  - intros Hle. by destruct (Z.gtb_spec num_trials 0); [lia|].
  - intros Hgt. destruct (Z.gtb_spec num_trials 0); [|lia]. cbn [negb].
    destruct (trials_loop_spec city snapshot dc ve r (Z.to_nat num_trials)
                Hwf start_seed [] w Hr) as (ds & w' & Hloop & Hseeds & Hr' & Hall).
    rewrite (bind_ok _ _ _ _ _ Hloop). cbn [app].
    pose proof (Forall2_length _ _ _ Hall) as Hlen.
    unfold seeds_from in Hlen. rewrite length_fmap, length_seq in Hlen.
    assert (Py.len ds = num_trials) as Hlen'.
    { unfold Py.len. rewrite <- Hlen. lia. }
    rewrite Hlen', py_sum_foldr.
    exists w', ds. split; [done|]. split; [done|]. split; [done|].
    split; [unfold lift; by destruct (true_div _ _)|].
    intros Hbig Hn.
    pose proof (sum_bounds _ _ (trials_days _ _ _ _ _ _ Hwf Hall)) as Hsum.
    rewrite <- Hlen, Z2Nat.id in Hsum by lia.
    destruct (true_div_accurate (foldr Z.add 0 ds) num_trials)
      as (avg & Hdiv & Hacc); [lia|lia| |done|].
    { assert (0 < 2 ^ 1023) by done. set (C := 2 ^ 1023) in *. nia. }
    exists avg. unfold lift. by rewrite Hdiv.
Qed.

End Trials.

Lemma calc_avg_days_to_zero_infections_spec_witness :
  well_formed ["S"; "I0"; "S"; "S"]
    [Susceptible; Infected 0; Susceptible; Susceptible]
  ∧ heap (world_of ["S"; "I0"; "S"; "S"]) !! 0%nat
    = Some ["S"; "I0"; "S"; "S"]
  ∧ 3 > 0
  ∧ Py.len ["S"; "I0"; "S"; "S"] + 2 < 2 ^ 1023
  ∧ 3 <= 2 ^ 1022
  ∧ ∃ w' durations avg,
      seedings w'
      = seedings (world_of ["S"; "I0"; "S"; "S"])
        ++ (Some <$> seeds_from 100 (Z.to_nat 3))
      ∧ Forall2 (fun s d => trial (fun _ i => N.of_nat i * 2 ^ 51)%N
                              ["S"; "I0"; "S"; "S"] 2 s (Finite (1 # 2))
                            = Ok d)
                (seeds_from 100 (Z.to_nat 3)) durations
      ∧ heap w' !! 0%nat = Some ["S"; "I0"; "S"; "S"]
      ∧ calc_avg_days_to_zero_infections (fun _ i => N.of_nat i * 2 ^ 51)%N
          0%nat 2 (Some 100) (Finite (1 # 2)) 3
          (world_of ["S"; "I0"; "S"; "S"])
        = (avg ← true_div (foldr Z.add 0 durations) 3; Ok (avg, w'))
      ∧ calc_avg_days_to_zero_infections (fun _ i => N.of_nat i * 2 ^ 51)%N
          0%nat 2 (Some 100) (Finite (1 # 2)) 3
          (world_of ["S"; "I0"; "S"; "S"]) = Ok (avg, w')
      ∧ (Qabs (avg - inject_Z (foldr Z.add 0%Z durations) / inject_Z 3)
         <= inject_Z (foldr Z.add 0%Z durations) / inject_Z 3
            * (1 # 2 ^ 53))%Q.
Proof.
  assert (well_formed ["S"; "I0"; "S"; "S"]
            [Susceptible; Infected 0; Susceptible; Susceptible]) as Hwf.
  { repeat constructor. }
  split; [exact Hwf|]. split; [reflexivity|]. split; [reflexivity|].
  split; [reflexivity|]. split; [discriminate|].
  destruct (calc_avg_days_to_zero_infections_spec
              (fun _ i => N.of_nat i * 2 ^ 51)%N _ _ 2 100 (Finite (1 # 2)) 3
              (world_of ["S"; "I0"; "S"; "S"]) 0%nat Hwf eq_refl)
    as [_ H].
  destruct (H eq_refl) as (w' & durations & Hs & Hall & Hr & Hcalc & Hacc).
  destruct (Hacc eq_refl ltac:(discriminate)) as (avg & Hok & Herr).
  exists w', durations, avg. repeat split; assumption.
Defined.

(** Three trials of two days each: the average is the double 2.0. *)
Example calc_avg_seeds :
  (fun res => match res with
              | Ok (avg, w') => Some (avg, seedings w')
              | Raise _ => None
              end)
    (calc_avg_days_to_zero_infections (fun _ i => N.of_nat i * 2 ^ 51)%N
       0%nat 2 (Some 100) (Finite (1 # 2)) 3 (world_of ["S"; "I0"; "S"; "S"]))
  = Some (2 # 1, [Some 100; Some 101; Some 102]).
Proof. vm_compute. reflexivity. Qed.

(** Durations 4, 2 and 2 (only the first trial vaccinates nobody): the
    average is the double 2.6666666666666665, not the rational 8/3. *)
Example calc_avg_rounded :
  (fun res => match res with
              | Ok (avg, w') => Some avg
              | Raise _ => None
              end)
    (calc_avg_days_to_zero_infections
       (fun src _ => match src with SeedInt 0 => 2 ^ 52 | _ => 0 end)%N
       0%nat 2 (Some 0) (Finite (1 # 4)) 3 (world_of ["I0"; "S"; "S"]))
  = Some (6004799503160661 # 2251799813685248)
  ∧ trial (fun src _ => match src with SeedInt 0 => 2 ^ 52 | _ => 0 end)%N
      ["I0"; "S"; "S"] 2 0 (Finite (1 # 4)) = Ok 4.
Proof. split; vm_compute; reflexivity. Qed.

(** ** C6: the day advance *)

Lemma step_lookup snapshot dc i p :
  snapshot !! i = Some p →
  step snapshot dc !! i = Some (advance_state snapshot i dc p).
Proof. intros H. unfold step. by rewrite list_lookup_imap, H. Qed.

Lemma simulate_one_day_well_formed city snapshot dc w r :
  well_formed city snapshot →
  heap w !! r = Some city →
  ∃ city',
    simulate_one_day r dc w
    = Ok (length (heap w), set_heap (heap w ++ [city']) w)
    ∧ length city' = length city
    ∧ (∀ i s', city' !! i = Some s' →
               advance_person_at_position city (Z.of_nat i) dc = Ok s')
    ∧ well_formed city' (step snapshot dc).
Proof.
  intros Hwf Hr.
  destruct (next_city_spec dc city snapshot Hwf) as (city' & Hnext & Hwf').
  exists city'. rewrite (simulate_one_day_spec r dc city w Hr), Hnext.
  destruct (advance_all_lookup city dc _ _ _ Hnext) as [Hlen Hlook].
  split; [done|]. split; [done|]. split; [|done].
  intros i s' Hi. by rewrite <- (Hlook i s' Hi).
Qed.

(** C6: on a well-formed city, [simulate_one_day] returns a new list (at an
    address the store did not have; the list it was given keeps its
    contents) of the same length, whose item at each position is what
    [advance_person_at_position] returns for the city it was given; and the
    state of that item is the state the per-person rule gives, in its
    priority order: infected for [d] days with [d + 1 >= days_contagious],
    recovered; infected otherwise, infected for [d + 1] days; susceptible
    with an infected neighbour, infected for 0 days; otherwise unchanged. *)
Theorem simulate_one_day_synchronous city snapshot dc w r :
  well_formed city snapshot →
  heap w !! r = Some city →
  ∃ city',
    simulate_one_day r dc w
    = Ok (length (heap w), set_heap (heap w ++ [city']) w)
    ∧ r ≠ length (heap w)
    ∧ (heap w ++ [city']) !! r = Some city
    ∧ length city' = length city
    ∧ (∀ i s', city' !! i = Some s' →
               advance_person_at_position city (Z.of_nat i) dc = Ok s')
    ∧ well_formed city' (step snapshot dc)
    ∧ (∀ i p, snapshot !! i = Some p →
              step snapshot dc !! i
              = Some match p with
                     | Infected d =>
                         if Z.of_N d + 1 >=? dc then Recovered
                         else Infected (d + 1)
                     | Susceptible =>
                         if has_infected_neighbor snapshot i then Infected 0
                         else Susceptible
                     | Recovered => Recovered
                     | Vaccinated => Vaccinated
                     end).
Proof.
  intros Hwf Hr. pose proof (lookup_lt_Some _ _ _ Hr) as Hlt.
  destruct (simulate_one_day_well_formed city snapshot dc w r Hwf Hr)
    as (city' & Hday & Hlen & Hlook & Hwf').
  exists city'.
  split; [done|]. split; [lia|]. split; [by apply lookup_app_l_Some|].
  split; [done|]. split; [done|]. split; [done|].
  intros i p Hp. rewrite (step_lookup _ _ _ _ Hp). by destruct p.
Qed.

Lemma simulate_one_day_synchronous_witness :
  well_formed ["S"; "I0"; "I1"; "R"]
    [Susceptible; Infected 0; Infected 1; Recovered]
  ∧ heap (world_of ["S"; "I0"; "I1"; "R"]) !! 0%nat
    = Some ["S"; "I0"; "I1"; "R"]
  ∧ ∃ city',
      simulate_one_day 0%nat 2 (world_of ["S"; "I0"; "I1"; "R"])
      = Ok (1%nat, set_heap [["S"; "I0"; "I1"; "R"]; city']
                     (world_of ["S"; "I0"; "I1"; "R"]))
      ∧ well_formed city'
          (step [Susceptible; Infected 0; Infected 1; Recovered] 2).
Proof.
  assert (well_formed ["S"; "I0"; "I1"; "R"]
            [Susceptible; Infected 0; Infected 1; Recovered]) as Hwf.
  { repeat constructor. }
  split; [exact Hwf|]. split; [reflexivity|].
  destruct (simulate_one_day_synchronous _ _ 2
              (world_of ["S"; "I0"; "I1"; "R"]) 0%nat Hwf eq_refl)
    as (city' & Hday & _ & _ & _ & _ & Hwf' & _).
  exists city'. split; [exact Hday|exact Hwf'].
Defined.

Example simulate_one_day_ex :
  contents (simulate_one_day 0%nat 2 (world_of ["S"; "I0"; "I1"; "R"; "S"]))
  = Ok ["I0"; "I1"; "R"; "R"; "S"].
Proof. reflexivity. Qed.

(** ** C7: the neighbour rule *)

(** A position that is not susceptible fails the assertion. *)
Lemma has_an_infected_neighbor_assert city position s :
  city !! position = Some s → s ≠ "S" →
  has_an_infected_neighbor city (Z.of_nat position) = Raise AssertionError.
Proof.
  intros Hs Hne. unfold has_an_infected_neighbor.
  rewrite (index_nat _ _ _ Hs). cbn [mbind result_bind].
  by destruct (String.eqb_spec s "S").
Qed.

(** C7: at a susceptible position of a well-formed city,
    [has_an_infected_neighbor] returns whether the position before or the
    position after, where there is one, is infected: at the first index,
    whether index 1 exists and is infected; at the last, whether index
    [N - 2] is; in between, whether either neighbour is; and false in a city
    of one person. *)
Theorem has_an_infected_neighbor_spec city snapshot position :
  well_formed city snapshot →
  snapshot !! position = Some Susceptible →
  ∃ b,
    has_an_infected_neighbor city (Z.of_nat position) = Ok b
    ∧ (b = true ↔
       ((1 ≤ position)%nat ∧ infected_at snapshot (position - 1) = true)
       ∨ infected_at snapshot (position + 1) = true)
    ∧ (position = 0%nat → b = infected_at snapshot 1)
    ∧ (position = (length snapshot - 1)%nat →
       b = infected_at snapshot (length snapshot - 2))
    ∧ ((0 < position < length snapshot - 1)%nat →
       b = infected_at snapshot (position - 1)
           || infected_at snapshot (position + 1))
    ∧ (length snapshot = 1%nat → b = false).
Proof.
  intros Hwf Hp. pose proof (lookup_lt_Some _ _ _ Hp) as Hlt.
  destruct (well_formed_lookup _ _ _ _ Hwf Hp) as (s & Hs & Hrep).
  inversion Hrep; subst.
  exists (raw_neighbor_infected city position).
  split; [by apply has_an_infected_neighbor_raw|].
  unfold raw_neighbor_infected.
  assert (infected_at snapshot position = false) as Hself.
  { unfold infected_at. by rewrite Hp. }
  assert (∀ j, (length snapshot ≤ j)%nat → infected_at snapshot j = false)
    as Hout.
  { intros j Hj. unfold infected_at. by rewrite lookup_ge_None_2. }
  destruct position as [|before];
    rewrite !(well_formed_infected_at _ _ _ Hwf).
  - split; [|split; [done|split; [|split; [lia|]]]].
    + rewrite orb_false_l. split; [by right|]. by intros [[? _]|?]; [lia|].
    + intros Hlast. rewrite orb_false_l, Hout by lia.
      replace (length snapshot - 2)%nat with 0%nat by lia. by rewrite Hself.
    + intros Hone. rewrite orb_false_l. apply Hout. lia.
  - replace (S before - 1)%nat with before by lia.
    replace (S before + 1)%nat with (S (S before)) by lia.
    split; [|split; [done|split; [|split; [done|lia]]]].
    + rewrite orb_true_iff. split; [intros [?|?]; [left; split; [lia|done]|by right]|].
      by intros [[_ ?]|?]; [left|right].
    + intros Hlast. rewrite (Hout (S (S before))) by lia.
      rewrite orb_false_r. f_equal. lia.
Qed.

Lemma has_an_infected_neighbor_spec_witness :
  well_formed ["I3"; "S"; "R"] [Infected 3; Susceptible; Recovered]
  ∧ [Infected 3; Susceptible; Recovered] !! 1%nat = Some Susceptible
  ∧ has_an_infected_neighbor ["I3"; "S"; "R"] 1 = Ok true.
Proof.
  assert (well_formed ["I3"; "S"; "R"] [Infected 3; Susceptible; Recovered])
    as Hwf.
  { repeat constructor. }
  split; [exact Hwf|]. split; [reflexivity|].
  destruct (has_an_infected_neighbor_spec _ _ 1%nat Hwf eq_refl)
    as (b & Hb & Hiff & _).
  change (Z.of_nat 1) with 1 in Hb. rewrite Hb. f_equal.
  apply Hiff. left. split; [lia|reflexivity].
Defined.

(** ** C8: vaccination *)

(** C8: [vaccinate_city] returns a new list and leaves the one it was given
    as it was.  It draws one number for every ["S"] of the city and none for
    any other item: the generator has advanced by the number of ["S"], and
    the ["S"] at position [i] gets the draw that follows those of the ["S"]
    before it.  Every draw is in [0, 1).  The new item is ["V"] exactly when
    the old one is ["S"] and its draw is below [vaccine_effectiveness];
    otherwise it is the old item.  With effectiveness 0 the new list has the
    contents of the old one. *)
Theorem vaccinate_city_draws genrand_res53 city ve w r :
  heap w !! r = Some city →
  ∃ new_city,
    vaccinate_city genrand_res53 r ve w
    = Ok (length (heap w),
          World (heap w ++ [new_city]) (gen w)
                (drawn w + count_S city) (os_reads w) (seedings w))
    ∧ r ≠ length (heap w)
    ∧ (heap w ++ [new_city]) !! r = Some city
    ∧ length new_city = length city
    ∧ (∀ i s, city !! i = Some s →
         let draw := nth_random genrand_res53 (gen w)
                       (drawn w + count_S (take i city)) in
         (0 <= draw)%Q ∧ (draw < 1)%Q
         ∧ new_city !! i
           = Some (if (s =? "S")%string
                   then if float_lt draw ve then "V" else "S"
                   else s))
    ∧ (ve = Finite 0 → new_city = city).
Proof.
  intros Hr. pose proof (lookup_lt_Some _ _ _ Hr) as Hlt.
  exists (vaccinated (nth_random genrand_res53 (gen w)) ve city (drawn w)).
  split; [by apply vaccinate_city_spec|]. split; [lia|].
  split; [by apply lookup_app_l_Some|]. split; [apply vaccinated_length|].
  split.
  - intros i s Hi draw.
    destruct (nth_random_range genrand_res53 (gen w)
                (drawn w + count_S (take i city))) as [H0 H1].
    split; [done|]. split; [done|]. by apply vaccinated_lookup.
  - intros ->. apply vaccinated_zero.
Qed.

Lemma vaccinate_city_draws_witness :
  heap (world_of ["S"; "I0"; "S"; "R"; "S"]) !! 0%nat
  = Some ["S"; "I0"; "S"; "R"; "S"]
  ∧ ∃ new_city,
      vaccinate_city (fun _ i => N.of_nat i * 2 ^ 51)%N 0%nat (Finite (1 # 2))
        (world_of ["S"; "I0"; "S"; "R"; "S"])
      = Ok (1%nat,
            World [["S"; "I0"; "S"; "R"; "S"]; new_city] (SeedOS 0) 3 1 [])
      ∧ length new_city = 5%nat.
Proof.
  split; [reflexivity|].
  destruct (vaccinate_city_draws (fun _ i => N.of_nat i * 2 ^ 51)%N
              ["S"; "I0"; "S"; "R"; "S"] (Finite (1 # 2))
              (world_of ["S"; "I0"; "S"; "R"; "S"]) 0%nat eq_refl)
    as (new_city & Hvac & _ & _ & Hlen & _).
  exists new_city. split; [exact Hvac|exact Hlen].
Defined.

Example vaccinate_city_ex :
  vaccinate_city (fun _ i => N.of_nat i * 2 ^ 51)%N 0%nat (Finite (1 # 2))
    (world_of ["S"; "I0"; "S"; "R"; "S"])
  = Ok (1%nat,
        World [["S"; "I0"; "S"; "R"; "S"]; ["V"; "I0"; "V"; "R"; "S"]]
              (SeedOS 0) 3 1 []).
Proof. reflexivity. Qed.

(** ** C9: a city without infection is a fixed point *)

(** C9: when every item of the city is ["S"], ["R"] or ["V"],
    [simulate_one_day] returns a list with the contents of the one it was
    given. *)
Theorem simulate_one_day_fixed_point city dc w r :
  Forall (fun s => s = "S" ∨ s = "R" ∨ s = "V") city →
  heap w !! r = Some city →
  contents (simulate_one_day r dc w) = Ok city.
Proof.
  intros Hall Hr. rewrite (contents_simulate_one_day r dc city w Hr).
  apply next_city_uninfected.
  eapply Forall_impl; [exact Hall|]. by intros s [->|[->| ->]].
Qed.

Lemma simulate_one_day_fixed_point_witness :
  Forall (fun s => s = "S" ∨ s = "R" ∨ s = "V") ["S"; "V"; "R"; "S"]
  ∧ heap (world_of ["S"; "V"; "R"; "S"]) !! 0%nat = Some ["S"; "V"; "R"; "S"]
  ∧ contents (simulate_one_day 0%nat 2 (world_of ["S"; "V"; "R"; "S"]))
    = Ok ["S"; "V"; "R"; "S"].
Proof.
  assert (Forall (fun s => s = "S" ∨ s = "R" ∨ s = "V")
            ["S"; "V"; "R"; "S"]) as Hall.
  { repeat first [apply Forall_nil_2 | apply Forall_cons_2; [by auto|]]. }
  split; [exact Hall|]. split; [reflexivity|].
  apply (simulate_one_day_fixed_point _ 2 _ 0%nat Hall). reflexivity.
Defined.

(** ** C10: a contagious period that is not positive *)

(** C10: when [days_contagious <= 0], on a well-formed city, every infected
    position advances to ["R"]: the city [simulate_one_day] returns has
    ["R"] wherever the one it was given had an infected person; and
    [run_simulation] returns. *)
Theorem nonpositive_days_contagious genrand_res53 city snapshot dc :
  dc <= 0 →
  well_formed city snapshot →
  (∀ i d, snapshot !! i = Some (Infected d) →
          advance_person_at_position city (Z.of_nat i) dc = Ok "R")
  ∧ (∀ w r, heap w !! r = Some city →
       ∃ city', contents (simulate_one_day r dc w) = Ok city'
                ∧ ∀ i d, snapshot !! i = Some (Infected d) →
                         city' !! i = Some "R")
  ∧ (∀ w r a ve, heap w !! r = Some city →
       is_ok (run_simulation genrand_res53 r dc a ve w) = true).
Proof.
  intros Hdc Hwf.
  assert (∀ i d, snapshot !! i = Some (Infected d) →
                 advance_person_at_position city (Z.of_nat i) dc = Ok "R")
    as Hadv.
  { intros i d Hi.
    destruct (advance_person_at_position_spec _ _ _ dc _ Hwf Hi)
      as (s' & -> & Hs').
    cbn [advance_state] in Hs'.
    destruct (Z.geb_spec (Z.of_N d + 1) dc); [|lia]. by inversion Hs'. }
  split; [exact Hadv|]. split.
  - intros w r Hr.
    destruct (simulate_one_day_well_formed city snapshot dc w r Hwf Hr)
      as (city' & Hday & Hlen & Hlook & _).
    exists city'. split.
    { rewrite Hday. cbn. by rewrite list_lookup_middle. }
    intros i d Hi. pose proof (lookup_lt_Some _ _ _ Hi) as Hlt.
    rewrite <- (well_formed_length _ _ Hwf), <- Hlen in Hlt.
    destruct (lookup_lt_is_Some_2 city' i Hlt) as [s' Hs'].
    rewrite Hs'. f_equal. pose proof (Hlook _ _ Hs') as H1.
    rewrite (Hadv _ _ Hi) in H1. congruence.
  - intros w r a ve Hr.
    destruct (run_simulation_returns genrand_res53 city snapshot dc a ve
                w r Hwf Hr) as (r' & d & w' & ? & ? & -> & _).
    done.
Qed.

Lemma nonpositive_days_contagious_witness :
  0 <= 0
  ∧ well_formed ["S"; "I4"; "I0"] [Susceptible; Infected 4; Infected 0]
  ∧ advance_person_at_position ["S"; "I4"; "I0"] 1 0 = Ok "R"
  ∧ is_ok (run_simulation (fun _ _ => 0%N) 0%nat 0 None (Finite 0)
             (world_of ["S"; "I4"; "I0"])) = true.
Proof.
  assert (well_formed ["S"; "I4"; "I0"] [Susceptible; Infected 4; Infected 0])
    as Hwf.
  { repeat constructor. }
  split; [done|]. split; [exact Hwf|].
  destruct (nonpositive_days_contagious (fun _ _ => 0%N) _ _ 0
              (Z.le_refl 0) Hwf) as (Hadv & _ & Hrun).
  split.
  - apply (Hadv 1%nat 4%N). reflexivity.
  - apply Hrun. reflexivity.
Defined.

(** ** Further facts *)

(** [count_infected] counts the items that hold an ['I']. *)
Lemma count_infected_filter city :
  count_infected city
  = Z.of_nat (length (filter (fun s => Py.str_in "I" s = true) city)).
Proof.
  unfold count_infected.
  assert (∀ a, foldl (fun num ind => if Py.str_in "I" ind then num + 1 else num)
                 a city
               = a + Z.of_nat (length (filter (fun s => Py.str_in "I" s = true)
                                         city))) as H; [|by rewrite H].
  induction city as [|s city IH]; intros a; [simpl; lia|].
  cbn [foldl]. rewrite IH, filter_cons.
  destruct (Py.str_in "I" s) eqn:E.
  - rewrite decide_True by done. simpl. lia.
  - rewrite decide_False by done. done.
Qed.

(** One infected person alone recovers after [days_contagious] days. *)
Example single_person :
  outcome (run_simulation (fun _ _ => 0%N) 0%nat 2 (Some 0) (Finite 0)
             (world_of ["I0"]))
  = Ok (["R"], 2).
Proof. reflexivity. Qed.

(** Without infection the loop stops at once. *)
Example no_infection :
  outcome (run_simulation (fun _ _ => 0%N) 0%nat 2 (Some 0) (Finite 0)
             (world_of ["S"; "S"; "S"]))
  = Ok (["S"; "S"; "S"], 0).
Proof. reflexivity. Qed.

(** Without a seed, [random_seed += 1] raises after the first trial. *)
Lemma trials_loop_unseeded genrand_res53 city snapshot dc ve n dl w r :
  well_formed city snapshot →
  heap w !! r = Some city →
  trials_loop genrand_res53 (S n) r dc None ve dl w = Raise TypeError.
Proof.
  intros Hwf Hr. cbn [trials_loop].
  destruct (run_simulation_returns genrand_res53 city snapshot dc None ve w r
              Hwf Hr) as (r' & d & w' & city' & snap' & Hrun & _).
  by rewrite (bind_ok _ _ _ _ _ Hrun).
Qed.

(** * Further properties of the code *)

(** ** The stop test of the driver and [count_infected] *)

Lemma str_in_I_cons c r :
  Py.str_in "I" (String c r) = Ascii.eqb c "I" || Py.str_in "I" r.
Proof.
  cbn [Py.str_in String.prefix].
  destruct (ascii_dec "I" c) as [<-|Hne].
  - by destruct r.
  - destruct (Ascii.eqb_spec c "I"); [congruence|done].
Qed.

Lemma str_in_I_app s1 s2 :
  Py.str_in "I" (String.append s1 s2)
  = Py.str_in "I" s1 || Py.str_in "I" s2.
Proof.
  induction s1 as [|c r IH]; [by destruct s2|].
  cbn [String.append]. rewrite !str_in_I_cons, IH. by rewrite orb_assoc.
Qed.

Lemma str_in_I_join city :
  Py.str_in "I" (Py.join city) = existsb (Py.str_in "I") city.
Proof.
  induction city as [|s city IH]; [done|].
  cbn [Py.join foldr existsb]. fold (Py.join city).
  by rewrite str_in_I_app, IH.
Qed.

Lemma filter_nil_existsb (city : list string) :
  length (filter (fun s => Py.str_in "I" s = true) city) = 0%nat
  ↔ existsb (Py.str_in "I") city = false.
Proof.
  induction city as [|s city IH]; [done|].
  rewrite filter_cons. cbn [existsb]. destruct (Py.str_in "I" s) eqn:E.
  - rewrite decide_True by done. simpl. split; [lia|done].
  - by rewrite decide_False by done.
Qed.

Lemma count_infected_none city :
  Py.str_in "I" (Py.join city) = false → count_infected city = 0.
Proof.
  rewrite str_in_I_join, count_infected_filter. intros E.
  apply filter_nil_existsb in E. lia.
Qed.

(** X1: the test that stops the loop of [run_simulation],
    ['I' not in ''.join(city)], holds exactly when [count_infected] counts
    no infected person, whatever strings the city holds. *)
Theorem stop_test_count_infected city :
  negb (Py.str_in "I" (Py.join city)) = (count_infected city =? 0).
Proof.
  rewrite str_in_I_join, count_infected_filter.
  destruct (existsb (Py.str_in "I") city) eqn:E; cbn [negb]; symmetry.
  - apply Z.eqb_neq. intros H.
    assert (length (filter (fun s => Py.str_in "I" s = true) city) = 0%nat)
      as H0 by lia.
    apply filter_nil_existsb in H0. congruence.
  - apply Z.eqb_eq. apply filter_nil_existsb in E. lia.
Qed.

(** ** Errors of the neighbour rule and of the transition *)

Lemma index_below {A} (l : list A) (i : Z) :
  i < - Z.of_nat (length l) → Py.index l i = Raise IndexError.
Proof.
  intros H. unfold Py.index.
  destruct (Z.ltb_spec i 0); [|lia].
  by destruct (Z.ltb_spec (i + Z.of_nat (length l)) 0); [|lia].
Qed.

Lemma index_nil {A} (i : Z) : Py.index (@nil A) i = Raise IndexError.
Proof.
  destruct (Z.lt_ge_cases i 0); [by apply index_below|by apply index_out].
Qed.

(** X2: [has_an_infected_neighbor] raises IndexError when [position] is
    outside [-N .. N-1], and AssertionError when the item there is not
    ["S"]. *)
Theorem has_an_infected_neighbor_errors city position :
  (Py.len city <= position ∨ position < - Py.len city →
   has_an_infected_neighbor city position = Raise IndexError)
  ∧ (∀ s, Py.index city position = Ok s → s ≠ "S" →
          has_an_infected_neighbor city position = Raise AssertionError).
Proof.
  unfold has_an_infected_neighbor, Py.len. split.
  - intros [H|H];
      [rewrite (index_out city position) by done
      |rewrite (index_below city position) by done]; done.
  - intros s -> Hne. cbn [mbind result_bind].
    by destruct (String.eqb_spec s "S").
Qed.

Lemma has_an_infected_neighbor_errors_witness :
  (Py.len ["S"; "I0"] <= 2 ∨ 2 < - Py.len ["S"; "I0"])
  ∧ has_an_infected_neighbor ["S"; "I0"] 2 = Raise IndexError
  ∧ Py.index ["S"; "I0"] (-1) = Ok "I0" ∧ "I0" ≠ "S"
  ∧ has_an_infected_neighbor ["S"; "I0"] (-1) = Raise AssertionError.
Proof.
  destruct (has_an_infected_neighbor_errors ["S"; "I0"] 2) as [Hout _].
  destruct (has_an_infected_neighbor_errors ["S"; "I0"] (-1)) as [_ Hassert].
  split; [left; by vm_compute|]. split; [apply Hout; left; by vm_compute|].
  split; [reflexivity|]. split; [discriminate|].
  apply (Hassert "I0"); [reflexivity|discriminate].
Defined.

(** X3: at a negative position that holds ["S"], [has_an_infected_neighbor]
    returns false whatever the neighbours hold: none of its comparisons of
    [position] with 0 and [N - 1] holds for a negative number. *)
Theorem has_an_infected_neighbor_negative city position :
  position < 0 →
  Py.index city position = Ok "S" →
  has_an_infected_neighbor city position = Ok false.
Proof.
  intros Hneg Hidx.
  assert (length city ≠ 0%nat) as Hlen.
  { intros H0. apply length_zero_iff_nil in H0. subst city.
    by rewrite index_nil in Hidx. }
  unfold has_an_infected_neighbor. rewrite Hidx.
  cbn [mbind result_bind]. change ("S" =? "S")%string with true. cbn [negb].
  destruct (Z.eqb_spec position 0); [lia|].
  unfold Py.len.
  destruct (Z.eqb_spec position (Z.of_nat (length city) - 1)); [lia|].
  by destruct (Z.gtb_spec position 0); [lia|].
Qed.

Lemma has_an_infected_neighbor_negative_witness :
  -1 < 0
  ∧ Py.index ["I0"; "I1"; "S"] (-1) = Ok "S"
  ∧ has_an_infected_neighbor ["I0"; "I1"; "S"] (-1) = Ok false
  ∧ has_an_infected_neighbor ["I0"; "I1"; "S"] 2 = Ok true.
Proof.
  split; [done|]. split; [reflexivity|].
  split; [|reflexivity].
  apply has_an_infected_neighbor_negative; [done|reflexivity].
Defined.

(** X4: [advance_person_at_position] raises IndexError when [position] is
    outside [-N .. N-1], and ValueError when the item there holds an ['I']
    and what follows its first character is not an integer literal. *)
Theorem advance_person_at_position_errors city position dc :
  (Py.len city <= position ∨ position < - Py.len city →
   advance_person_at_position city position dc = Raise IndexError)
  ∧ (∀ s, Py.index city position = Ok s →
          Py.str_in "I" s = true →
          Py.int_opt (Py.tail s) = None →
          advance_person_at_position city position dc = Raise ValueError).
Proof.
  unfold advance_person_at_position, days_plus_one, Py.len. split.
  - intros [H|H];
      [rewrite (index_out city position) by done
      |rewrite (index_below city position) by done]; done.
  - intros s -> HI Hint. cbn [mbind result_bind]. rewrite HI.
    cbn [and_then mbind result_bind]. unfold Py.int. by rewrite Hint.
Qed.

Lemma advance_person_at_position_errors_witness :
  (Py.len ["S"; "I1x"] <= 5 ∨ 5 < - Py.len ["S"; "I1x"])
  ∧ advance_person_at_position ["S"; "I1x"] 5 2 = Raise IndexError
  ∧ Py.index ["S"; "I1x"] 1 = Ok "I1x"
  ∧ Py.str_in "I" "I1x" = true
  ∧ Py.int_opt (Py.tail "I1x") = None
  ∧ advance_person_at_position ["S"; "I1x"] 1 2 = Raise ValueError.
Proof.
  destruct (advance_person_at_position_errors ["S"; "I1x"] 5 2) as [Hout _].
  destruct (advance_person_at_position_errors ["S"; "I1x"] 1 2) as [_ Hval].
  split; [left; by vm_compute|]. split; [apply Hout; left; by vm_compute|].
  split; [reflexivity|]. split; [reflexivity|]. split; [reflexivity|].
  apply (Hval "I1x"); reflexivity.
Defined.

(** ** What a run keeps, for any strings *)

Lemma advance_immune city dc i s :
  city !! i = Some s →
  Py.str_in "I" s = false →
  s ≠ "S" →
  advance_person_at_position city (Z.of_nat i) dc = Ok s.
Proof.
  intros Hi HI HS. unfold advance_person_at_position.
  rewrite (index_nat _ _ _ Hi). cbn [mbind result_bind]. rewrite HI.
  cbn [and_then]. by destruct (String.eqb_spec "S" s); [congruence|].
Qed.

Lemma next_city_lookup city dc city' :
  next_city city dc = Ok city' →
  length city' = length city
  ∧ ∀ i s', city' !! i = Some s' →
            advance_person_at_position city (Z.of_nat i) dc = Ok s'.
Proof.
  intros H. destruct (advance_all_lookup city dc _ _ _ H) as [Hlen Hlook].
  split; [done|]. intros i s' Hi. by rewrite <- (Hlook i s' Hi).
Qed.

Lemma next_city_immune city dc city' i s :
  next_city city dc = Ok city' →
  city !! i = Some s →
  Py.str_in "I" s = false →
  s ≠ "S" →
  city' !! i = Some s.
Proof.
  intros Hnext Hi HI HS. destruct (next_city_lookup _ _ _ Hnext) as [Hlen Hlook].
  pose proof (lookup_lt_Some _ _ _ Hi) as Hlt. rewrite <- Hlen in Hlt.
  destruct (lookup_lt_is_Some_2 city' i Hlt) as [s' Hs'].
  pose proof (Hlook _ _ Hs') as H1.
  rewrite (advance_immune city dc i s Hi HI HS) in H1. congruence.
Qed.

Lemma run_val_post dc n :
  ∀ city d city' d',
    run_val n city d dc = Ok (city', d') →
    length city' = length city
    ∧ d <= d' <= d + Z.of_nat n
    ∧ (d' < d + Z.of_nat n → Py.str_in "I" (Py.join city') = false)
    ∧ (∀ i s, city !! i = Some s → Py.str_in "I" s = false → s ≠ "S" →
              city' !! i = Some s).
Proof.
  induction n as [|n IH]; intros city d city' d' Hrun; cbn [run_val] in Hrun.
  - simplify_eq. repeat split; [lia..|done].
  - destruct (Py.str_in "I" (Py.join city)) eqn:HI; cbn [negb] in Hrun.
    + destruct (next_city city dc) as [city1|] eqn:Hnext;
        cbn [mbind result_bind] in Hrun; [|done].
      destruct (IH _ _ _ _ Hrun) as (Hlen & Hd & Hearly & Himm).
      destruct (next_city_lookup _ _ _ Hnext) as [Hlen1 _].
      split; [congruence|]. split; [lia|]. split.
      * intros Hlt. apply Hearly. lia.
      * intros i s Hi HIs HS. apply Himm; [|done..].
        by apply (next_city_immune city dc city1 i s).
    + simplify_eq. split; [done|]. split; [lia|]. by split.
Qed.

Lemma vaccinated_not_S draws ve city k i s :
  city !! i = Some s → s ≠ "S" → vaccinated draws ve city k !! i = Some s.
Proof.
  intros Hi HS. rewrite (vaccinated_lookup draws ve city k i s Hi).
  by destruct (String.eqb_spec s "S").
Qed.

(** X5: whenever [run_simulation] returns, on any list of strings, the
    final city has the length of the one it was given; the duration is
    between 0 and [max 0 (N + days_contagious)]; a duration below
    [N + days_contagious] means that no item of the final city holds an
    ['I']; and every item that is not ["S"] and holds no ['I'] (a recovered
    or vaccinated person) is in the final city as it was. *)
Theorem run_simulation_post genrand_res53 city dc a ve w r city' d :
  heap w !! r = Some city →
  outcome (run_simulation genrand_res53 r dc a ve w) = Ok (city', d) →
  length city' = length city
  ∧ 0 <= d <= Z.max 0 (Py.len city + dc)
  ∧ (d < Py.len city + dc → count_infected city' = 0)
  ∧ (∀ i s, city !! i = Some s → Py.str_in "I" s = false → s ≠ "S" →
            city' !! i = Some s).
Proof.
  intros Hr. rewrite (outcome_run_simulation genrand_res53 _ _ _ _ _ _ Hr).
  unfold run_simulation_val. intros Hrun.
  destruct (run_val_post _ _ _ _ _ _ Hrun) as (Hlen & Hd & Hearly & Himm).
  rewrite vaccinated_length in Hlen.
  split; [done|]. split; [lia|]. split.
  - intros Hlt. apply count_infected_none, Hearly. lia.
  - intros i s Hi HI HS. apply Himm; [|done..].
    by apply vaccinated_not_S.
Qed.

Lemma run_simulation_post_witness :
  heap (world_of ["S"; "I0"; "R"; "V"; "X"]) !! 0%nat
  = Some ["S"; "I0"; "R"; "V"; "X"]
  ∧ outcome (run_simulation (fun _ _ => 0%N) 0%nat 3 (Some 1) (Finite 0)
               (world_of ["S"; "I0"; "R"; "V"; "X"]))
    = Ok (["R"; "R"; "R"; "V"; "X"], 4)
  ∧ count_infected ["R"; "R"; "R"; "V"; "X"] = 0.
Proof.
  split; [reflexivity|]. split; [reflexivity|].
  destruct (run_simulation_post (fun _ _ => 0%N)
              ["S"; "I0"; "R"; "V"; "X"] 3 (Some 1) (Finite 0)
              (world_of ["S"; "I0"; "R"; "V"; "X"]) 0%nat
              ["R"; "R"; "R"; "V"; "X"] 4 eq_refl eq_refl)
    as (_ & _ & Hnone & _).
  apply Hnone. reflexivity.
Defined.

(** X6: on a city where no item holds an ['I'], [run_simulation] returns
    after 0 days, for every [days_contagious], and the city it returns is the
    vaccinated copy: the city it was given with some ["S"] replaced by
    ["V"], and with its very contents when the effectiveness is 0. *)
Theorem run_simulation_no_infection genrand_res53 city dc a ve w r :
  Forall (fun s => Py.str_in "I" s = false) city →
  heap w !! r = Some city →
  ∃ city',
    outcome (run_simulation genrand_res53 r dc a ve w) = Ok (city', 0)
    ∧ length city' = length city
    ∧ (∀ i s, city !! i = Some s →
              city' !! i = Some s ∨ (s = "S" ∧ city' !! i = Some "V"))
    ∧ (ve = Finite 0 → city' = city).
Proof.
  intros Hall Hr.
  rewrite (outcome_run_simulation genrand_res53 _ _ _ _ _ _ Hr).
  unfold run_simulation_val.
  set (draws := nth_random genrand_res53 (seeded a w)).
  assert (∀ i s, city !! i = Some s →
            vaccinated draws ve city 0 !! i = Some s
            ∨ (s = "S" ∧ vaccinated draws ve city 0 !! i = Some "V")) as Hv.
  { intros i s Hi. rewrite (vaccinated_lookup draws ve city 0 i s Hi).
    destruct (String.eqb_spec s "S") as [->|]; [|by left].
    destruct (float_lt _ ve); [by right|by left]. }
  assert (Py.str_in "I" (Py.join (vaccinated draws ve city 0)) = false) as HI.
  { rewrite str_in_I_join. apply not_true_is_false. intros Hex.
    apply existsb_exists in Hex as (s' & Hin & Hs').
    apply list_elem_of_In, list_elem_of_lookup in Hin as [i Hi].
    pose proof (lookup_lt_Some _ _ _ Hi) as Hlt.
    rewrite vaccinated_length in Hlt.
    destruct (lookup_lt_is_Some_2 city i Hlt) as [s Hs].
    pose proof (proj1 (Forall_lookup _ _) Hall i s Hs) as HnoI.
    destruct (Hv i s Hs) as [H1|[-> H1]]; rewrite H1 in Hi; simplify_eq;
      congruence. }
  exists (vaccinated draws ve city 0).
  split.
  - destruct (Z.to_nat (Py.len city + dc)); cbn [run_val]; [done|].
    by rewrite HI.
  - split; [apply vaccinated_length|]. split; [exact Hv|].
    intros ->. apply vaccinated_zero.
Qed.

Lemma run_simulation_no_infection_witness :
  Forall (fun s => Py.str_in "I" s = false) ["S"; "R"; "S"]
  ∧ heap (world_of ["S"; "R"; "S"]) !! 0%nat = Some ["S"; "R"; "S"]
  ∧ ∃ city',
      outcome (run_simulation (fun _ i => N.of_nat i * 2 ^ 52)%N 0%nat 2
                 None (Finite (1 # 4)) (world_of ["S"; "R"; "S"]))
      = Ok (city', 0)
      ∧ length city' = 3%nat.
Proof.
  assert (Forall (fun s => Py.str_in "I" s = false) ["S"; "R"; "S"]) as Hall.
  { repeat first [apply Forall_nil_2 | apply Forall_cons_2; [reflexivity|]]. }
  split; [exact Hall|]. split; [reflexivity|].
  destruct (run_simulation_no_infection (fun _ i => N.of_nat i * 2 ^ 52)%N
              ["S"; "R"; "S"] 2 None (Finite (1 # 4))
              (world_of ["S"; "R"; "S"]) 0%nat Hall eq_refl)
    as (city' & Hout & Hlen & _).
  exists city'. split; [exact Hout|exact Hlen].
Defined.

(** ** The infection is over before the bound of the loop *)

Lemma has_infected_neighbor_alt snapshot i :
  (i < length snapshot)%nat →
  has_infected_neighbor snapshot i = neighbor_infected snapshot i.
Proof.
  intros Hlt. unfold has_infected_neighbor, neighbor_infected.
  destruct i as [|before]; [done|].
  case_decide; [done|]. case_decide as Hlast.
  - replace (length snapshot - 2)%nat with before by lia.
    unfold infected_at at 3. rewrite lookup_ge_None_2 by lia.
    by rewrite orb_false_r.
  - by replace (S before - 1)%nat with before by lia;
      replace (S before + 1)%nat with (S (S before)) by lia.
Qed.

Lemma exposed_true snapshot :
  exposed snapshot = true
  ↔ ∃ i, snapshot !! i = Some Susceptible
         ∧ neighbor_infected snapshot i = true.
Proof.
  unfold exposed. rewrite existsb_exists. split.
  - intros (i & _ & Hi). exists i. unfold exposed_at in Hi.
    destruct (snapshot !! i) as [[| | |]|]; done.
  - intros (i & Hi & Hnb). exists i. split.
    + apply in_seq. pose proof (lookup_lt_Some _ _ _ Hi). lia.
    + unfold exposed_at. by rewrite Hi.
Qed.

Lemma exposed_false snapshot i :
  exposed snapshot = false →
  snapshot !! i = Some Susceptible →
  neighbor_infected snapshot i = false.
Proof.
  intros Hex Hi. apply not_true_is_false. intros Hnb.
  assert (exposed snapshot = true) by (apply exposed_true; eauto).
  congruence.
Qed.

Lemma infected_at_true snapshot i :
  infected_at snapshot i = true ↔ ∃ c, snapshot !! i = Some (Infected c).
Proof.
  unfold infected_at. split.
  - destruct (snapshot !! i) as [[| | |c]|]; try done. by exists c.
  - by intros [c ->].
Qed.

(** Where the next snapshot has an infected person, the person was
    infected, or was susceptible with an infected neighbour. *)
Lemma step_infected snapshot dc i c' :
  step snapshot dc !! i = Some (Infected c') →
  (∃ c, snapshot !! i = Some (Infected c)
        ∧ c' = (c + 1)%N ∧ Z.of_N c + 1 < dc)
  ∨ (snapshot !! i = Some Susceptible
     ∧ neighbor_infected snapshot i = true ∧ c' = 0%N).
Proof.
  intros H. unfold step in H. rewrite list_lookup_imap in H.
  destruct (snapshot !! i) as [p|] eqn:Hp; [|done]. cbn in H.
  pose proof (lookup_lt_Some _ _ _ Hp) as Hlt.
  destruct p as [| | |c]; cbn [advance_state] in H; simplify_eq.
  - right. rewrite (has_infected_neighbor_alt _ _ Hlt) in H.
    destruct (neighbor_infected snapshot i); by simplify_eq.
  - left. exists c. destruct (Z.geb_spec (Z.of_N c + 1) dc); by simplify_eq.
Qed.

Lemma step_susceptible snapshot dc i :
  step snapshot dc !! i = Some Susceptible →
  snapshot !! i = Some Susceptible.
Proof.
  intros H. unfold step in H. rewrite list_lookup_imap in H.
  destruct (snapshot !! i) as [p|] eqn:Hp; [|done]. cbn in H.
  destruct p as [| | |c]; cbn [advance_state] in H; simplify_eq; [done|].
  by destruct (Z.of_N c + 1 >=? dc).
Qed.

Lemma quiet_infected snapshot dc i :
  exposed snapshot = false →
  infected_at (step snapshot dc) i = true →
  infected_at snapshot i = true.
Proof.
  intros Hex [c' Hc']%infected_at_true. apply infected_at_true.
  destruct (step_infected _ _ _ _ Hc') as [(c & Hc & _)|(HS & Hnb & _)].
  - by exists c.
  - rewrite (exposed_false _ _ Hex HS) in Hnb. done.
Qed.

Lemma quiet_stays_quiet snapshot dc :
  exposed snapshot = false → exposed (step snapshot dc) = false.
Proof.
  intros Hex. apply not_true_is_false. intros (i & HS & Hnb)%exposed_true.
  apply step_susceptible in HS.
  assert (neighbor_infected snapshot i = true) as Hnb'.
  { unfold neighbor_infected in *. apply orb_true_iff in Hnb as [Hb|Ha].
    - destruct i as [|before]; [done|].
      by rewrite (quiet_infected _ _ _ Hex Hb).
    - rewrite (quiet_infected _ _ _ Hex Ha). by rewrite orb_true_r. }
  by rewrite (exposed_false _ _ Hex HS) in Hnb'.
Qed.

Lemma max_remaining_le dc snapshot k :
  (∀ i p, snapshot !! i = Some p → (remaining dc p ≤ k)%nat) →
  (max_remaining dc snapshot ≤ k)%nat.
Proof.
  unfold max_remaining. induction snapshot as [|p snapshot IH]; intros H.
  - simpl. lia.
  - simpl. pose proof (H 0%nat p eq_refl).
    assert (max_list_with (remaining dc) snapshot ≤ k)%nat.
    { apply IH. intros i q Hq. by apply (H (S i)). }
    lia.
Qed.

Lemma remaining_le_max dc snapshot i p :
  snapshot !! i = Some p →
  (remaining dc p ≤ max_remaining dc snapshot)%nat.
Proof.
  unfold max_remaining. revert i.
  induction snapshot as [|q snapshot IH]; intros i Hi; [done|].
  destruct i as [|i]; simplify_eq/=; [lia|].
  pose proof (IH _ Hi). lia.
Qed.

Lemma quiet_remaining snapshot dc :
  exposed snapshot = false →
  existsb is_infected snapshot = true →
  (max_remaining dc (step snapshot dc) + 1 ≤ max_remaining dc snapshot)%nat.
Proof.
  intros Hex Hinf.
  assert (1 ≤ max_remaining dc snapshot)%nat as Hpos.
  { apply existsb_exists in Hinf as (p & Hin & Hp).
    apply list_elem_of_In, list_elem_of_lookup in Hin as [i Hi].
    pose proof (remaining_le_max dc _ _ _ Hi) as Hle.
    destruct p; try done. cbn [remaining] in Hle. lia. }
  enough (max_remaining dc (step snapshot dc)
          ≤ max_remaining dc snapshot - 1)%nat by lia.
  apply max_remaining_le. intros i p' Hp'.
  destruct p' as [| | |c']; cbn [remaining]; [lia..|].
  destruct (step_infected _ _ _ _ Hp') as [(c & Hc & -> & Hlt)|(HS & Hnb & _)].
  - pose proof (remaining_le_max dc _ _ _ Hc) as Hle.
    cbn [remaining] in Hle. lia.
  - by rewrite (exposed_false _ _ Hex HS) in Hnb.
Qed.

Lemma max_remaining_dc snapshot dc :
  1 <= dc → (max_remaining dc snapshot ≤ Z.to_nat dc)%nat.
Proof.
  intros Hdc. apply max_remaining_le. intros i p _.
  destruct p; cbn [remaining]; lia.
Qed.

Lemma sum_imap_le {A} (f : A → nat) (l : list A) :
  ∀ g : nat → A → A,
    (∀ i x, l !! i = Some x → (f (g i x) ≤ f x)%nat) →
    (sum_list_with f (imap g l) ≤ sum_list_with f l)%nat
    ∧ ∀ j x, l !! j = Some x → (f (g j x) < f x)%nat →
             (sum_list_with f (imap g l) < sum_list_with f l)%nat.
Proof.
  induction l as [|y l IH]; intros g Hle; [done|].
  rewrite imap_cons. cbn [sum_list_with].
  destruct (IH (g ∘ S)) as [IHle IHlt].
  { intros i x Hi. by apply (Hle (S i)). }
  pose proof (Hle 0%nat y eq_refl) as H0. split; [lia|].
  intros [|j] x Hj Hlt; simplify_eq/=; [lia|].
  pose proof (IHlt j x Hj Hlt). lia.
Qed.

Lemma exposed_susceptibles snapshot dc :
  exposed snapshot = true →
  (susceptibles (step snapshot dc) + 1 ≤ susceptibles snapshot)%nat.
Proof.
  intros (j & HS & Hnb)%exposed_true. unfold susceptibles, step.
  pose proof (lookup_lt_Some _ _ _ HS) as Hlt.
  destruct (sum_imap_le (fun p => if is_susceptible p then 1%nat else 0%nat)
              snapshot (fun i p => advance_state snapshot i dc p)) as [_ Hstrict].
  - intros i p _. destruct p as [| | |c]; cbn [advance_state is_susceptible];
      [|lia..|].
    + destruct (has_infected_neighbor snapshot i); cbn; lia.
    + destruct (Z.of_N c + 1 >=? dc); cbn; lia.
  - enough (sum_list_with (fun p => if is_susceptible p then 1%nat else 0%nat)
              (imap (fun i p => advance_state snapshot i dc p) snapshot)
            < sum_list_with (fun p => if is_susceptible p then 1%nat else 0%nat)
                snapshot)%nat by lia.
    apply (Hstrict j Susceptible HS). cbn [advance_state].
    rewrite (has_infected_neighbor_alt _ _ Hlt), Hnb. cbn. lia.
Qed.

Lemma days_bound_step snapshot dc :
  1 <= dc →
  existsb is_infected snapshot = true →
  (days_bound dc (step snapshot dc) + 1 ≤ days_bound dc snapshot)%nat.
Proof.
  intros Hdc Hinf. unfold days_bound at 2.
  destruct (exposed snapshot) eqn:Hex.
  - pose proof (exposed_susceptibles snapshot dc Hex) as HS.
    pose proof (max_remaining_dc (step snapshot dc) dc Hdc) as HM.
    unfold days_bound. destruct (exposed (step snapshot dc)); lia.
  - unfold days_bound. rewrite (quiet_stays_quiet _ dc Hex).
    by apply quiet_remaining.
Qed.

Lemma susceptibles_length snapshot :
  (susceptibles snapshot ≤ length snapshot)%nat
  ∧ (existsb is_infected snapshot = true →
     (susceptibles snapshot < length snapshot)%nat).
Proof.
  unfold susceptibles. induction snapshot as [|p snapshot [IH1 IH2]]; [done|].
  cbn [sum_list_with length existsb].
  destruct p; cbn [is_susceptible is_infected orb]; split; try lia.
  intros H. specialize (IH2 H). lia.
Qed.

Lemma exposed_infected snapshot :
  exposed snapshot = true → existsb is_infected snapshot = true.
Proof.
  intros (i & _ & Hnb)%exposed_true. apply existsb_exists.
  assert (∃ j, infected_at snapshot j = true) as [j Hj].
  { unfold neighbor_infected in Hnb. apply orb_true_iff in Hnb as [H|H].
    - destruct i; [done|eauto].
    - eauto. }
  apply infected_at_true in Hj as [c Hc]. exists (Infected c).
  split; [|done]. apply list_elem_of_In, list_elem_of_lookup. eauto.
Qed.

Lemma days_bound_length snapshot dc :
  1 <= dc →
  (days_bound dc snapshot < length snapshot + Z.to_nat dc)%nat.
Proof.
  intros Hdc. unfold days_bound. destruct (exposed snapshot) eqn:Hex.
  - pose proof (proj2 (susceptibles_length snapshot)
                  (exposed_infected _ Hex)). lia.
  - pose proof (max_remaining_dc snapshot dc Hdc).
    destruct snapshot; [cbn; lia|cbn [length]; lia].
Qed.

Lemma well_formed_stop_test city snapshot :
  well_formed city snapshot →
  Py.str_in "I" (Py.join city) = existsb is_infected snapshot.
Proof.
  intros Hwf. rewrite str_in_I_join.
  induction Hwf as [|s p city snapshot Hs _ IH]; [done|].
  cbn [existsb]. by rewrite (represents_str_in _ _ Hs), IH.
Qed.

Lemma run_val_extinct dc n :
  1 <= dc →
  ∀ city snapshot d,
    well_formed city snapshot →
    (days_bound dc snapshot ≤ n)%nat →
    ∃ city' snapshot' d',
      run_val n city d dc = Ok (city', d')
      ∧ well_formed city' snapshot'
      ∧ existsb is_infected snapshot' = false
      ∧ d <= d' <= d + Z.of_nat (days_bound dc snapshot).
Proof.
  intros Hdc. induction n as [|n IH]; intros city snapshot d Hwf Hle.
  - exists city, snapshot, d. split; [done|]. split; [done|]. split; [|lia].
    apply not_true_is_false. intros Hinf.
    pose proof (days_bound_step snapshot dc Hdc Hinf). lia.
  - cbn [run_val]. rewrite (well_formed_stop_test _ _ Hwf).
    destruct (existsb is_infected snapshot) eqn:Hinf; cbn [negb].
    + destruct (next_city_spec dc _ _ Hwf) as (city1 & -> & Hwf1).
      cbn [mbind result_bind].
      pose proof (days_bound_step snapshot dc Hdc Hinf) as Hstep.
      destruct (IH city1 _ (d + 1) Hwf1) as (city' & snap' & d' & -> & ? & ? & ?);
        [lia|].
      exists city', snap', d'. repeat split; [done..|lia|lia].
    + exists city, snapshot, d. repeat split; [done..|lia|lia].
Qed.

(** X7: for [days_contagious >= 1], on every well-formed city,
    [run_simulation] returns a city in which nobody is infected, after
    fewer than [N + days_contagious] days: the bound of the loop is never
    what ends it. *)
Theorem run_simulation_extinct genrand_res53 city snapshot dc a ve w r :
  1 <= dc →
  well_formed city snapshot →
  heap w !! r = Some city →
  ∃ city' d,
    outcome (run_simulation genrand_res53 r dc a ve w) = Ok (city', d)
    ∧ count_infected city' = 0
    ∧ 0 <= d < Py.len city + dc.
Proof.
  intros Hdc Hwf Hr.
  rewrite (outcome_run_simulation genrand_res53 _ _ _ _ _ _ Hr).
  unfold run_simulation_val.
  set (draws := nth_random genrand_res53 (seeded a w)).
  destruct (vaccinated_well_formed draws ve city snapshot 0 Hwf) as (sv & Hsv).
  pose proof (well_formed_length _ _ Hsv) as Hlen.
  rewrite vaccinated_length in Hlen.
  pose proof (days_bound_length sv dc Hdc) as Hbound.
  destruct (run_val_extinct dc (Z.to_nat (Py.len city + dc)) Hdc _ _ 0 Hsv)
    as (city' & snap' & d' & Hrun & Hwf' & Hnone & Hd).
  { unfold Py.len. lia. }
  exists city', d'. split; [done|]. split.
  - apply count_infected_none.
    by rewrite (well_formed_stop_test _ _ Hwf'), Hnone.
  - unfold Py.len. lia.
Qed.

Lemma run_simulation_extinct_witness :
  1 <= 3
  ∧ well_formed ["S"; "S"; "I1"; "S"; "V"; "S"]
      [Susceptible; Susceptible; Infected 1; Susceptible; Vaccinated;
       Susceptible]
  ∧ heap (world_of ["S"; "S"; "I1"; "S"; "V"; "S"]) !! 0%nat
    = Some ["S"; "S"; "I1"; "S"; "V"; "S"]
  ∧ ∃ city' d,
      outcome (run_simulation (fun _ _ => (2 ^ 52)%N) 0%nat 3 (Some 4)
                 (Finite (1 # 4)) (world_of ["S"; "S"; "I1"; "S"; "V"; "S"]))
      = Ok (city', d)
      ∧ count_infected city' = 0
      ∧ 0 <= d < Py.len ["S"; "S"; "I1"; "S"; "V"; "S"] + 3.
Proof.
  assert (well_formed ["S"; "S"; "I1"; "S"; "V"; "S"]
            [Susceptible; Susceptible; Infected 1; Susceptible; Vaccinated;
             Susceptible]) as Hwf.
  { repeat constructor. }
  split; [done|]. split; [exact Hwf|]. split; [reflexivity|].
  apply (run_simulation_extinct (fun _ _ => (2 ^ 52)%N) _ _ 3 (Some 4)
           (Finite (1 # 4)) _ 0%nat ltac:(done) Hwf).
  reflexivity.
Defined.

Example run_simulation_extinct_ex :
  outcome (run_simulation (fun _ _ => (2 ^ 52)%N) 0%nat 3 (Some 4)
             (Finite (1 # 4)) (world_of ["S"; "S"; "I1"; "S"; "V"; "S"]))
  = Ok (["R"; "R"; "R"; "R"; "V"; "S"], 5).
Proof. reflexivity. Qed.

(** ** More on vaccination *)

Lemma Qltb_lt x y : Qltb x y = true ↔ (x < y)%Q.
Proof. unfold Qltb, Qlt. apply Z.ltb_lt. Qed.

Section VaccinationMore.

Variable genrand_res53 : source → nat → N.

Lemma float_lt_never src k ve :
  never_effective ve → float_lt (nth_random genrand_res53 src k) ve = false.
Proof.
  destruct ve as [q| | |]; cbn [never_effective float_lt]; try done.
  intros Hq. apply not_true_is_false. intros Hlt%Qltb_lt.
  destruct (nth_random_range genrand_res53 src k) as [H0 _].
  apply (Qlt_irrefl q). eapply Qle_lt_trans; [exact Hq|].
  eapply Qle_lt_trans; [exact H0|exact Hlt].
Qed.

Lemma float_lt_always src k ve :
  always_effective ve → float_lt (nth_random genrand_res53 src k) ve = true.
Proof.
  destruct ve as [q| | |]; cbn [always_effective float_lt]; try done.
  intros Hq. apply Qltb_lt.
  destruct (nth_random_range genrand_res53 src k) as [_ H1].
  eapply Qlt_le_trans; [exact H1|exact Hq].
Qed.

Lemma vaccinated_never src ve city k :
  never_effective ve →
  vaccinated (nth_random genrand_res53 src) ve city k = city.
Proof.
  intros Hve. revert k. induction city as [|s city IH]; intros k; [done|].
  cbn [vaccinated]. rewrite float_lt_never, !IH by done.
  by destruct (s =? "S")%string.
Qed.

Lemma vaccinated_always src ve city k :
  always_effective ve →
  vaccinated (nth_random genrand_res53 src) ve city k
  = (fun s => if (s =? "S")%string then "V" else s) <$> city.
Proof.
  intros Hve. revert k. induction city as [|s city IH]; intros k; [done|].
  cbn [vaccinated fmap list_fmap]. rewrite float_lt_always, !IH by done.
  by destruct (s =? "S")%string.
Qed.

Lemma contents_vaccinate_city r ve city w :
  heap w !! r = Some city →
  contents (vaccinate_city genrand_res53 r ve w)
  = Ok (vaccinated (nth_random genrand_res53 (gen w)) ve city (drawn w)).
Proof.
  intros Hr. rewrite (vaccinate_city_spec genrand_res53 r ve city w Hr).
  cbn. by rewrite list_lookup_middle.
Qed.

End VaccinationMore.

Lemma vaccinated_filter_infected draws ve city :
  ∀ k, filter (fun s => Py.str_in "I" s = true) (vaccinated draws ve city k)
       = filter (fun s => Py.str_in "I" s = true) city.
Proof.
  induction city as [|s city IH]; intros k; [done|].
  cbn [vaccinated]. destruct (String.eqb_spec s "S") as [->|_].
  - rewrite !filter_cons, IH.
    by destruct (float_lt (draws k) ve).
  - by rewrite !filter_cons, IH.
Qed.

Lemma vaccinated_count_infected draws ve city k :
  count_infected (vaccinated draws ve city k) = count_infected city.
Proof.
  by rewrite !count_infected_filter, vaccinated_filter_infected.
Qed.

(** X8: [vaccinate_city] changes neither the number of infected people
    ([count_infected]) nor any item other than ["S"], whatever the items,
    the effectiveness and the draws. *)
Theorem vaccinate_city_keeps_infected genrand_res53 city ve w r :
  heap w !! r = Some city →
  ∃ new_city,
    contents (vaccinate_city genrand_res53 r ve w) = Ok new_city
    ∧ count_infected new_city = count_infected city
    ∧ ∀ i s, city !! i = Some s → s ≠ "S" → new_city !! i = Some s.
Proof.
  intros Hr. eexists. split; [by apply contents_vaccinate_city|].
  split; [apply vaccinated_count_infected|].
  intros i s Hi HS. by apply vaccinated_not_S.
Qed.

Lemma vaccinate_city_keeps_infected_witness :
  heap (world_of ["S"; "I2"; "S"; "SI"]) !! 0%nat = Some ["S"; "I2"; "S"; "SI"]
  ∧ ∃ new_city,
      contents (vaccinate_city (fun _ _ => 0%N) 0%nat PosInf
                  (world_of ["S"; "I2"; "S"; "SI"])) = Ok new_city
      ∧ count_infected new_city = count_infected ["S"; "I2"; "S"; "SI"].
Proof.
  split; [reflexivity|].
  destruct (vaccinate_city_keeps_infected (fun _ _ => 0%N)
              ["S"; "I2"; "S"; "SI"] PosInf
              (world_of ["S"; "I2"; "S"; "SI"]) 0%nat eq_refl)
    as (new_city & Hc & Hn & _).
  exists new_city. split; [exact Hc|exact Hn].
Defined.

(** X9: with an effectiveness of at least 1 (or infinite), whatever the
    generator gives, [vaccinate_city] replaces every ["S"] by ["V"]; with an
    effectiveness of at most 0 (or a NaN) it replaces none. *)
Theorem vaccinate_city_extremes genrand_res53 city ve w r :
  heap w !! r = Some city →
  (always_effective ve →
   contents (vaccinate_city genrand_res53 r ve w)
   = Ok ((fun s => if (s =? "S")%string then "V" else s) <$> city))
  ∧ (never_effective ve →
     contents (vaccinate_city genrand_res53 r ve w) = Ok city).
Proof.
  intros Hr. rewrite (contents_vaccinate_city genrand_res53 r ve city w Hr).
  split; intros Hve.
  - by rewrite vaccinated_always.
  - by rewrite vaccinated_never.
Qed.

Lemma vaccinate_city_extremes_witness :
  heap (world_of ["S"; "I0"; "S"]) !! 0%nat = Some ["S"; "I0"; "S"]
  ∧ always_effective (Finite 1)
  ∧ contents (vaccinate_city (fun _ i => N.of_nat i * 2 ^ 52)%N 0%nat
                (Finite 1) (world_of ["S"; "I0"; "S"]))
    = Ok ["V"; "I0"; "V"]
  ∧ never_effective (Finite (-1 # 2))
  ∧ contents (vaccinate_city (fun _ i => N.of_nat i * 2 ^ 52)%N 0%nat
                (Finite (-1 # 2)) (world_of ["S"; "I0"; "S"]))
    = Ok ["S"; "I0"; "S"].
Proof.
  assert (always_effective (Finite 1)) as Ha by (by vm_compute).
  assert (never_effective (Finite (-1 # 2))) as Hn by (by vm_compute).
  split; [reflexivity|]. split; [exact Ha|]. split.
  - apply (vaccinate_city_extremes _ ["S"; "I0"; "S"] (Finite 1)
             (world_of ["S"; "I0"; "S"]) 0%nat eq_refl). exact Ha.
  - split; [exact Hn|].
    apply (vaccinate_city_extremes _ ["S"; "I0"; "S"] (Finite (-1 # 2))
             (world_of ["S"; "I0"; "S"]) 0%nat eq_refl). exact Hn.
Defined.

(** ** What a run does to the store and to the generator *)

Lemma run_loop_addr dc n :
  ∀ r d w r' d' w',
    run_loop n r d dc w = Ok (r', d', w') →
    r' = r ∨ (length (heap w) ≤ r')%nat.
Proof.
  induction n as [|n IH]; intros r d w r' d' w' H.
  - unfold run_loop, mret, M_ret in H. simplify_eq. by left.
  - cbn [run_loop] in H. unfold mbind at 1, M_bind at 1, read in H.
    destruct (heap w !! r) as [city|] eqn:Hr; [|done].
    destruct (negb (Py.str_in "I" (Py.join city))).
    + unfold mret, M_ret in H. simplify_eq. by left.
    + unfold mbind, M_bind in H.
      rewrite (simulate_one_day_spec r dc city w Hr) in H.
      destruct (next_city city dc) as [city1|]; [|done].
      apply IH in H as [->|H]; right; [done|].
      cbn [heap set_heap] in H. rewrite length_app in H. simpl in H. lia.
Qed.

Section Frame.

Variable genrand_res53 : source → nat → N.

Lemma run_simulation_frame r dc a ve city w r' d w' :
  heap w !! r = Some city →
  run_simulation genrand_res53 r dc a ve w = Ok (r', d, w') →
  (∃ ext, heap w' = heap w ++ ext)
  ∧ (length (heap w) ≤ r')%nat
  ∧ gen w' = seeded a w
  ∧ drawn w' = count_S city
  ∧ seedings w' = seedings w ++ [a].
Proof.
  intros Hr Hrun.
  pose proof (run_simulation_spec genrand_res53 r dc a ve city w Hr) as Hspec.
  destruct (run_simulation_val _ city dc ve) as [[city' d']|e];
    [|congruence].
  destruct Hspec as (r'' & ext & Hrun' & _). rewrite Hrun' in Hrun.
  simplify_eq. cbn [heap gen drawn seedings].
  split; [by exists ext|]. split; [|done].
  (* the address: that of the vaccinated copy or a later one *)
  unfold run_simulation in Hrun'.
  set (w1 := World (heap w) (seeded a w) 0 (reads_after a w)
                   (seedings w ++ [a])) in *.
  assert (random_seed a w = Ok (tt, w1)) as Hseed by (by destruct a).
  rewrite (bind_ok _ _ _ _ _ Hseed) in Hrun'.
  rewrite (bind_ok _ _ _ _ _ (vaccinate_city_spec genrand_res53 r ve city w1 Hr))
    in Hrun'.
  cbn [heap gen drawn os_reads seedings w1 Nat.add] in Hrun'.
  match type of Hrun' with
  | (_ ≫= _) ?w2 = _ =>
      assert (heap w2 !! r = Some city) as Hr2
        by (by apply lookup_app_l_Some);
      rewrite (bind_ok _ _ _ _ _ (read_ok _ _ _ Hr2)) in Hrun'
  end.
  apply run_loop_addr in Hrun' as [->|H]; [done|].
  cbn [heap] in H. rewrite length_app in H. simpl in H. lia.
Qed.

(** X10: a call of [run_simulation] that returns has changed no list of the
    store, the city it was given included, and the city it returns is a
    list that did not exist before; it has seeded the generator once, with
    its [random_seed] argument, and drawn one number for every ["S"] of the
    city and no other. *)
Theorem run_simulation_effects r dc a ve city w r' d w' :
  heap w !! r = Some city →
  run_simulation genrand_res53 r dc a ve w = Ok (r', d, w') →
  (∀ r0 l, heap w !! r0 = Some l → heap w' !! r0 = Some l)
  ∧ heap w !! r' = None
  ∧ r' ≠ r
  ∧ seedings w' = seedings w ++ [a]
  ∧ gen w' = seeded a w
  ∧ drawn w' = count_S city.
Proof.
  intros Hr Hrun. pose proof (lookup_lt_Some _ _ _ Hr) as Hlt.
  destruct (run_simulation_frame r dc a ve city w r' d w' Hr Hrun)
    as ([ext Hext] & Haddr & Hgen & Hdrawn & Hseed).
  split; [|split; [|split; [lia|done]]].
  - intros r0 l Hl. rewrite Hext. by apply lookup_app_l_Some.
  - by apply lookup_ge_None_2.
Qed.

End Frame.

Lemma run_simulation_effects_witness :
  heap (World [["R"]; ["S"; "I0"; "S"]] (SeedInt 5) 7 2 [Some 5]) !! 1%nat
  = Some ["S"; "I0"; "S"]
  ∧ run_simulation (fun _ _ => 0%N) 1%nat 2 None (Finite 0)
      (World [["R"]; ["S"; "I0"; "S"]] (SeedInt 5) 7 2 [Some 5])
    = Ok (5%nat, 3,
          World [["R"]; ["S"; "I0"; "S"]; ["S"; "I0"; "S"];
                 ["I0"; "I1"; "I0"]; ["I1"; "R"; "I1"]; ["R"; "R"; "R"]]
                (SeedOS 2) 2 3 [Some 5; None])
  ∧ seedings (World [["R"]; ["S"; "I0"; "S"]; ["S"; "I0"; "S"];
                     ["I0"; "I1"; "I0"]; ["I1"; "R"; "I1"]; ["R"; "R"; "R"]]
                    (SeedOS 2) 2 3 [Some 5; None])
    = [Some 5] ++ [None].
Proof.
  assert (run_simulation (fun _ _ => 0%N) 1%nat 2 None (Finite 0)
            (World [["R"]; ["S"; "I0"; "S"]] (SeedInt 5) 7 2 [Some 5])
          = Ok (5%nat, 3,
                World [["R"]; ["S"; "I0"; "S"]; ["S"; "I0"; "S"];
                       ["I0"; "I1"; "I0"]; ["I1"; "R"; "I1"];
                       ["R"; "R"; "R"]]
                      (SeedOS 2) 2 3 [Some 5; None])) as Hrun.
  { vm_compute. reflexivity. }
  split; [reflexivity|]. split; [exact Hrun|].
  destruct (run_simulation_effects (fun _ _ => 0%N) 1%nat 2 None (Finite 0)
              ["S"; "I0"; "S"]
              (World [["R"]; ["S"; "I0"; "S"]] (SeedInt 5) 7 2 [Some 5])
              5%nat 3
              (World [["R"]; ["S"; "I0"; "S"]; ["S"; "I0"; "S"];
                      ["I0"; "I1"; "I0"]; ["I1"; "R"; "I1"];
                      ["R"; "R"; "R"]]
                     (SeedOS 2) 2 3 [Some 5; None])
              eq_refl Hrun) as (_ & _ & _ & Hseed & _).
  exact Hseed.
Defined.

(** ** The language the validation accepts *)

Lemma int_single c : is_ok (Py.int (String c EmptyString)) = is_digit c.
Proof. by destruct c as [[|] [|] [|] [|] [|] [|] [|] [|]]. Qed.

Lemma check_person_I c t :
  check_person (String "I" (String c t))
  = Ok (if is_digit c then Accepted else Rejected).
Proof.
  unfold check_person.
  change (str_index (String "I" (String c t)) 0) with (Ok "I").
  cbn [mbind result_bind]. change ("I" =? "I")%string with true. cbn iota.
  change (str_index (String "I" (String c t)) 1)
    with (Ok (String c EmptyString)).
  cbn [mbind result_bind]. rewrite <- int_single.
  unfold Py.int. by destruct (Py.int_opt (String c EmptyString)).
Qed.

Lemma check_person_other c t :
  c ≠ "I"%char →
  check_person (String c t)
  = Ok (if ((String c t =? "S") || (String c t =? "R"))%string
        then Accepted else Rejected).
Proof.
  intros Hc. unfold check_person.
  change (str_index (String c t) 0) with (Ok (String c EmptyString)).
  cbn [mbind result_bind].
  destruct (String.eqb_spec (String c EmptyString) "I") as [E|_];
    [congruence|].
  by destruct ((String c t =? "S") || (String c t =? "R"))%string.
Qed.

Lemma check_person_accepted p : check_person p = Ok Accepted ↔ token_ok p.
Proof.
  unfold token_ok. destruct p as [|c0 t]; [by split; [|intros [|[|(?&?&?&?)]]]|].
  destruct (ascii_dec c0 "I") as [->|Hc0].
  - destruct t as [|c t].
    + split; [done|]. by intros [|[|(?&?&?&?)]].
    + rewrite check_person_I. split.
      * destruct (is_digit c) eqn:E; [|done]. intros _. right; right. eauto.
      * intros [|[|(c' & t' & ? & Hd)]]; [done..|]. simplify_eq. by rewrite Hd.
  - rewrite (check_person_other _ _ Hc0). split.
    + destruct (String.eqb_spec (String c0 t) "S") as [->|_]; [by left|].
      destruct (String.eqb_spec (String c0 t) "R") as [->|_]; [by right; left|].
      done.
    + intros [->|[->|(c' & t' & ? & _)]]; [done..|]. congruence.
Qed.

(** X11: the validation of one token in [cmd] accepts exactly ["S"],
    ["R"] and the tokens made of ["I"], a decimal digit and anything after
    it; it raises, and only IndexError, exactly on the empty token and on
    ["I"]; every other token is rejected with the message. *)
Theorem check_person_verdicts p :
  (check_person p = Ok Accepted ↔ token_ok p)
  ∧ (check_person p = Raise IndexError ↔ p = EmptyString ∨ p = "I")
  ∧ (∀ e, check_person p = Raise e → e = IndexError)
  ∧ (¬ token_ok p → p ≠ EmptyString → p ≠ "I" →
     check_person p = Ok Rejected).
Proof.
  split; [apply check_person_accepted|].
  assert (∀ e, check_person p = Raise e →
               e = IndexError ∧ (p = EmptyString ∨ p = "I")) as Hraise.
  { intros e. destruct p as [|c0 t]; [cbn; intros; simplify_eq; auto|].
    destruct (ascii_dec c0 "I") as [->|Hc0].
    - destruct t as [|c t]; [cbn; intros; simplify_eq; auto|].
      by rewrite check_person_I.
    - by rewrite (check_person_other _ _ Hc0). }
  split; [split|split].
  - intros H. by apply Hraise in H as [_ ?].
  - by intros [->| ->].
  - intros e H. by apply Hraise in H as [? _].
  - intros Hno Hne HI. destruct (check_person p) as [[|]|e] eqn:E; [|done|].
    + by apply check_person_accepted in E.
    + destruct (Hraise e eq_refl) as [_ [?|?]]; done.
Qed.

Lemma check_person_verdicts_witness :
  token_ok "I7days" ∧ check_person "I7days" = Ok Accepted
  ∧ (¬ token_ok "Infected" ∧ "Infected" ≠ EmptyString ∧ "Infected" ≠ "I"
     ∧ check_person "Infected" = Ok Rejected).
Proof.
  assert (token_ok "I7days") as Hok.
  { right; right. by exists "7"%char, "days". }
  assert (¬ token_ok "Infected") as Hno.
  { intros [|[|(c & t & ? & Hd)]]; [done..|]. by simplify_eq. }
  split; [exact Hok|]. split.
  - by apply (proj1 (check_person_verdicts "I7days")).
  - split; [exact Hno|]. split; [done|]. split; [done|].
    by apply (proj2 (proj2 (proj2 (check_person_verdicts "Infected")))).
Defined.

Lemma check_city_accepted city :
  check_city city = Ok Accepted ↔ Forall token_ok city.
Proof.
  induction city as [|p city IH]; [done|].
  cbn [check_city]. rewrite Forall_cons, <- IH, <- check_person_accepted.
  destruct (check_person p) as [[|]|e]; cbn [mbind result_bind];
    split; try done; try tauto; by intros [? ?].
Qed.

(** X12: [cmd] hands a city to the simulation exactly when every token of
    the comma-separated argument, stripped of surrounding whitespace, is
    ["S"], ["R"] or ["I"] with a digit after it; the city is then the list
    of the stripped tokens, in order. *)
Theorem cmd_validate_accepts city tokens :
  cmd_validate city = Ok (Some tokens)
  ↔ tokens = Py.strip <$> Py.split "," city ∧ Forall token_ok tokens.
Proof.
  unfold cmd_validate, cmd_city. split.
  - intros H.
    destruct (check_city (Py.strip <$> Py.split "," city)) as [[|]|e] eqn:E;
      cbn [mbind result_bind] in H; simplify_eq.
    split; [done|]. by apply check_city_accepted.
  - intros [-> Hall]. apply check_city_accepted in Hall. by rewrite Hall.
Qed.

Lemma cmd_validate_accepts_witness :
  (["S"; "I12"; "R"] = Py.strip <$> Py.split "," " S,I12 , R"
   ∧ Forall token_ok ["S"; "I12"; "R"])
  ∧ cmd_validate " S,I12 , R" = Ok (Some ["S"; "I12"; "R"]).
Proof.
  assert (Forall token_ok ["S"; "I12"; "R"]) as Hall.
  { repeat first [apply Forall_nil_2 | apply Forall_cons_2];
      [by left| |by right; left].
    right; right. by exists "1"%char, "2". }
  split; [split; [reflexivity|exact Hall]|].
  apply (proj2 (cmd_validate_accepts " S,I12 , R" ["S"; "I12"; "R"])).
  split; [reflexivity|exact Hall].
Defined.

(** ** From the states of the specification to the command line and back *)

Lemma split_no_comma t : no_comma t = true → Py.split "," t = [t].
Proof.
  induction t as [|c t IH]; [done|]. cbn [no_comma Py.split].
  intros [Hc Ht]%andb_prop. apply negb_true_iff in Hc. rewrite Hc.
  by rewrite (IH Ht).
Qed.

Lemma split_app_comma t rest :
  no_comma t = true →
  Py.split "," (String.append t (String "," rest)) = t :: Py.split "," rest.
Proof.
  induction t as [|c t IH]; [done|]. cbn [no_comma String.append Py.split].
  intros [Hc Ht]%andb_prop. apply negb_true_iff in Hc. rewrite Hc.
  by rewrite (IH Ht).
Qed.

Lemma split_comma_join tokens :
  tokens ≠ [] →
  Forall (fun t => no_comma t = true) tokens →
  Py.split "," (comma_join tokens) = tokens.
Proof.
  induction tokens as [|t tokens IH]; [done|]. intros _ Hall.
  apply Forall_cons in Hall as [Ht Hall].
  destruct tokens as [|t' tokens]; [by apply split_no_comma|].
  change (comma_join (t :: t' :: tokens))
    with (String.append t (String "," (comma_join (t' :: tokens)))).
  rewrite (split_app_comma _ _ Ht). f_equal. by apply IH.
Qed.

Lemma digit_not_comma c : is_digit c = true → Ascii.eqb c "," = false.
Proof.
  destruct c as [[|] [|] [|] [|] [|] [|] [|] [|]]; vm_compute; congruence.
Qed.

Lemma all_digits_no_comma s : all_digits s = true → no_comma s = true.
Proof.
  induction s as [|c r IH]; simpl; [done|].
  intros [Hc Hr]%andb_prop. rewrite (digit_not_comma c Hc). simpl. auto.
Qed.

Lemma str_nonneg_digits n :
  all_digits (Py.str (Z.of_N n)) = true
  ∧ ∃ c t, Py.str (Z.of_N n) = String c t ∧ is_digit c = true.
Proof.
  unfold Py.str. destruct (Z.of_N n) as [|p|p] eqn:E; [|simpl|lia].
  { split; [done|]. by exists "0"%char, EmptyString. }
  pose proof (DecimalPos.Unsigned.to_uint_nonnil p) as Hnil.
  pose proof (all_digits_of_uint (Pos.to_uint p)) as Hall.
  assert (NilZero.string_of_uint (Pos.to_uint p)
          = NilEmpty.string_of_uint (Pos.to_uint p)) as ->.
  { by destruct (Pos.to_uint p). }
  split; [done|].
  destruct (NilEmpty.string_of_uint (Pos.to_uint p)) as [|c t] eqn:Es.
  - by destruct (Pos.to_uint p).
  - exists c, t. split; [done|]. simpl in Hall. by apply andb_prop in Hall as [? _].
Qed.

Lemma render_token p :
  p ≠ Vaccinated →
  token_ok (render p) ∧ no_comma (render p) = true
  ∧ no_space (render p) = true.
Proof.
  intros Hp. destruct p as [| | |d]; [|  |done|].
  - split; [by left|done].
  - split; [by right; left|done].
  - destruct (str_nonneg_digits d) as (Hall & c & t & Hs & Hc).
    cbn [render]. split; [|split].
    + right; right. exists c, t. by rewrite Hs.
    + cbn [no_comma]. by rewrite all_digits_no_comma.
    + cbn [no_space]. by rewrite all_digits_no_space.
Qed.

Lemma cmd_city_render snapshot :
  snapshot ≠ [] →
  Forall (fun p => p ≠ Vaccinated) snapshot →
  cmd_city (comma_join (render <$> snapshot)) = render <$> snapshot
  ∧ check_city (render <$> snapshot) = Ok Accepted.
Proof.
  intros Hne Hall.
  assert (Forall (fun t => token_ok t ∧ no_comma t = true
                           ∧ no_space t = true) (render <$> snapshot)) as Ht.
  { apply Forall_fmap. eapply Forall_impl; [exact Hall|].
    intros p Hp. by apply render_token. }
  split.
  - unfold cmd_city. rewrite split_comma_join.
    + apply list_eq. intros i. rewrite list_lookup_fmap.
      destruct ((render <$> snapshot) !! i) as [t|] eqn:E; [|done]. cbn.
      f_equal. apply strip_no_space.
      by apply (proj1 (Forall_lookup _ _) Ht i t E).
    + by destruct snapshot.
    + eapply Forall_impl; [exact Ht|]. by intros ? (?&?&?).
  - apply check_city_accepted.
    eapply Forall_impl; [exact Ht|]. by intros ? (?&?&?).
Qed.

Lemma well_formed_render snapshot : well_formed (render <$> snapshot) snapshot.
Proof.
  unfold well_formed. apply Forall2_fmap_l, Forall_Forall2_diag.
  apply Forall_forall. intros p _. apply represents_render.
Qed.

(** X13: a city of the specification that is not empty and has no
    vaccinated person, written as its tokens separated by commas, passes the
    validation of [cmd], which hands the simulation the very tokens; they
    represent the states they were written from. *)
Theorem cmd_validate_round_trip snapshot :
  snapshot ≠ [] →
  Forall (fun p => p ≠ Vaccinated) snapshot →
  cmd_validate (comma_join (render <$> snapshot))
  = Ok (Some (render <$> snapshot))
  ∧ well_formed (render <$> snapshot) snapshot.
Proof.
  intros Hne Hall. destruct (cmd_city_render snapshot Hne Hall) as [Hc Hok].
  split; [|apply well_formed_render].
  unfold cmd_validate. by rewrite Hc, Hok.
Qed.

Lemma cmd_validate_round_trip_witness :
  [Susceptible; Infected 12; Recovered] ≠ []
  ∧ Forall (fun p => p ≠ Vaccinated) [Susceptible; Infected 12; Recovered]
  ∧ cmd_validate "S,I12,R" = Ok (Some ["S"; "I12"; "R"]).
Proof.
  assert (Forall (fun p => p ≠ Vaccinated)
            [Susceptible; Infected 12; Recovered]) as Hall.
  { repeat first [apply Forall_nil_2 | apply Forall_cons_2; [done|]]. }
  split; [done|]. split; [exact Hall|].
  apply (cmd_validate_round_trip [Susceptible; Infected 12; Recovered]);
    [done|exact Hall].
Defined.

(** The empty command-line argument is one empty token. *)
Example cmd_validate_empty : cmd_validate EmptyString = Raise IndexError.
Proof. reflexivity. Qed.

(** ** More on the average *)

Section Average.

Variable genrand_res53 : source → nat → N.

Lemma run_simulation_days r dc a ve city w r' d w' :
  heap w !! r = Some city →
  run_simulation genrand_res53 r dc a ve w = Ok (r', d, w') →
  0 <= d <= Z.max 0 (Py.len city + dc).
Proof.
  intros Hr Hrun.
  pose proof (run_simulation_spec genrand_res53 r dc a ve city w Hr) as Hspec.
  destruct (run_simulation_val _ city dc ve) as [[city' d']|e] eqn:Hval;
    [|congruence].
  destruct Hspec as (r'' & ext & Hrun' & _). rewrite Hrun' in Hrun.
  simplify_eq. unfold run_simulation_val in Hval.
  destruct (run_val_post _ _ _ _ _ _ Hval) as (_ & Hd & _). lia.
Qed.

Lemma trials_loop_bounds r dc ve city n :
  ∀ seed dl w dl' w',
    heap w !! r = Some city →
    trials_loop genrand_res53 n r dc seed ve dl w = Ok (dl', w') →
    ∃ ds, dl' = dl ++ ds
          ∧ length ds = n
          ∧ Forall (fun d => 0 <= d <= Z.max 0 (Py.len city + dc)) ds.
Proof.
  induction n as [|n IH]; intros seed dl w dl' w' Hr H.
  - unfold trials_loop, mret, M_ret in H. simplify_eq.
    exists []. by rewrite app_nil_r.
  - cbn [trials_loop] in H. unfold mbind at 1, M_bind at 1 in H.
    destruct (run_simulation genrand_res53 r dc seed ve w)
      as [[[r1 d1] w1]|] eqn:Hrun; [|done].
    pose proof (run_simulation_days _ _ _ _ _ _ _ _ _ Hr Hrun) as Hd1.
    destruct (run_simulation_frame genrand_res53 _ _ _ _ _ _ _ _ _ Hr Hrun)
      as ([ext Hext] & _).
    unfold mbind at 1, M_bind at 1 in H.
    destruct seed as [s|]; [|done]. cbn [incr_seed lift snd] in H.
    apply IH in H as (ds & -> & Hlen & Hall).
    + exists (d1 :: ds). rewrite <- app_assoc. split; [done|].
      split; [simpl; by rewrite Hlen|by constructor].
    + rewrite Hext. by apply lookup_app_l_Some.
Qed.

(** X14: whenever [calc_avg_days_to_zero_infections] returns, on any list
    of strings, the average is at least 0, and it is at most
    [max 0 (N + days_contagious)] where that bound is below [2^53] (above,
    the bound need not be a double and the average can round past it). *)
Theorem calc_avg_bounds r dc seed ve num_trials city w avg w' :
  heap w !! r = Some city →
  calc_avg_days_to_zero_infections genrand_res53 r dc seed ve num_trials w
  = Ok (avg, w') →
  (0 <= avg)%Q
  ∧ (Z.max 0 (Py.len city + dc) < 2 ^ 53 →
     (avg <= inject_Z (Z.max 0 (Py.len city + dc)))%Q).
Proof.
  intros Hr H. unfold calc_avg_days_to_zero_infections in H.
  destruct (Z.gtb_spec num_trials 0) as [Hgt|]; [|done]. cbn [negb] in H.
  unfold mbind, M_bind in H.
  destruct (trials_loop genrand_res53 (Z.to_nat num_trials) r dc seed ve [] w)
    as [[dl w1]|] eqn:Hloop; [|done].
  apply (trials_loop_bounds _ _ _ city) in Hloop as (ds & -> & Hlen & Hall);
    [|done].
  cbn [app] in H. unfold Py.len at 1 in H. rewrite Hlen, Z2Nat.id in H by lia.
  unfold lift in H.
  destruct (true_div (py_sum ds) num_trials) as [x|] eqn:Hdiv; [|done].
  simplify_eq. pose proof (sum_bounds _ _ Hall) as Hsum.
  rewrite Hlen, <- py_sum_foldr in Hsum.
  rewrite Z2Nat.id in Hsum by lia.
  split.
  - apply (true_div_nonneg (py_sum ds) num_trials); [lia|lia|done].
  - intros Hsmall.
    apply (true_div_le (py_sum ds) num_trials); [lia|lia|lia|done..].
Qed.

(** X15: without a seed, on a well-formed city,
    [calc_avg_days_to_zero_infections] raises TypeError for every positive
    [num_trials]: [random_seed += 1] adds 1 to [None] after the first
    trial. *)
Theorem calc_avg_needs_seed city snapshot dc ve num_trials w r :
  well_formed city snapshot →
  heap w !! r = Some city →
  num_trials > 0 →
  calc_avg_days_to_zero_infections genrand_res53 r dc None ve num_trials w
  = Raise TypeError.
Proof.
  intros Hwf Hr Hgt. unfold calc_avg_days_to_zero_infections.
  destruct (Z.gtb_spec num_trials 0); [|lia]. cbn [negb].
  destruct (Z.to_nat num_trials) as [|n] eqn:E; [lia|].
  apply bind_raise. by apply (trials_loop_unseeded _ city snapshot).
Qed.

End Average.

Lemma calc_avg_bounds_witness :
  heap (world_of ["S"; "I0"; "S"; "S"]) !! 0%nat = Some ["S"; "I0"; "S"; "S"]
  ∧ calc_avg_days_to_zero_infections (fun _ i => N.of_nat i * 2 ^ 51)%N
      0%nat 2 (Some 100) (Finite (1 # 2)) 3 (world_of ["S"; "I0"; "S"; "S"])
    = Ok (2 # 1,
          (World [["S"; "I0"; "S"; "S"];
                 ["V"; "I0"; "V"; "S"]; ["V"; "I1"; "V"; "S"];
                 ["V"; "R"; "V"; "S"];
                 ["V"; "I0"; "V"; "S"]; ["V"; "I1"; "V"; "S"];
                 ["V"; "R"; "V"; "S"];
                 ["V"; "I0"; "V"; "S"]; ["V"; "I1"; "V"; "S"];
                 ["V"; "R"; "V"; "S"]]
                (SeedInt 102) 3 1 [Some 100; Some 101; Some 102]))
  ∧ Z.max 0 (Py.len ["S"; "I0"; "S"; "S"] + 2) < 2 ^ 53
  ∧ (0 <= 2 # 1)%Q
  ∧ (2 # 1 <= inject_Z (Z.max 0 (Py.len ["S"; "I0"; "S"; "S"] + 2)))%Q.
Proof.
  assert (calc_avg_days_to_zero_infections (fun _ i => N.of_nat i * 2 ^ 51)%N
            0%nat 2 (Some 100) (Finite (1 # 2)) 3
            (world_of ["S"; "I0"; "S"; "S"])
          = Ok (2 # 1,
                (World [["S"; "I0"; "S"; "S"];
                 ["V"; "I0"; "V"; "S"]; ["V"; "I1"; "V"; "S"];
                 ["V"; "R"; "V"; "S"];
                 ["V"; "I0"; "V"; "S"]; ["V"; "I1"; "V"; "S"];
                 ["V"; "R"; "V"; "S"];
                 ["V"; "I0"; "V"; "S"]; ["V"; "I1"; "V"; "S"];
                 ["V"; "R"; "V"; "S"]]
                (SeedInt 102) 3 1 [Some 100; Some 101; Some 102]))) as Hrun.
  { vm_compute. reflexivity. }
  split; [reflexivity|]. split; [exact Hrun|]. split; [reflexivity|].
  destruct (calc_avg_bounds (fun _ i => N.of_nat i * 2 ^ 51)%N 0%nat 2
           (Some 100) (Finite (1 # 2)) 3 ["S"; "I0"; "S"; "S"]
           (world_of ["S"; "I0"; "S"; "S"]) (2 # 1)
           (World [["S"; "I0"; "S"; "S"];
                 ["V"; "I0"; "V"; "S"]; ["V"; "I1"; "V"; "S"];
                 ["V"; "R"; "V"; "S"];
                 ["V"; "I0"; "V"; "S"]; ["V"; "I1"; "V"; "S"];
                 ["V"; "R"; "V"; "S"];
                 ["V"; "I0"; "V"; "S"]; ["V"; "I1"; "V"; "S"];
                 ["V"; "R"; "V"; "S"]]
                (SeedInt 102) 3 1 [Some 100; Some 101; Some 102])
           eq_refl Hrun) as [Hlow Hhigh].
  split; [exact Hlow|]. apply Hhigh. reflexivity.
Defined.

Lemma calc_avg_needs_seed_witness :
  well_formed ["S"; "I0"] [Susceptible; Infected 0]
  ∧ heap (world_of ["S"; "I0"]) !! 0%nat = Some ["S"; "I0"]
  ∧ 1 > 0
  ∧ calc_avg_days_to_zero_infections (fun _ _ => 0%N) 0%nat 2 None
      (Finite 0) 1 (world_of ["S"; "I0"])
    = Raise TypeError.
Proof.
  assert (well_formed ["S"; "I0"] [Susceptible; Infected 0]) as Hwf.
  { repeat constructor. }
  split; [exact Hwf|]. split; [reflexivity|]. split; [reflexivity|].
  apply (calc_avg_needs_seed (fun _ _ => 0%N) _ _ 2 (Finite 0) 1
           (world_of ["S"; "I0"]) 0%nat Hwf eq_refl).
  reflexivity.
Defined.

(** ** The command as a whole *)

Lemma run_simulation_val_extinct draws city snapshot dc ve :
  1 <= dc →
  well_formed city snapshot →
  ∃ city' d,
    run_simulation_val draws city dc ve = Ok (city', d)
    ∧ count_infected city' = 0
    ∧ length city' = length city
    ∧ 0 <= d < Py.len city + dc.
Proof.
  intros Hdc Hwf. unfold run_simulation_val.
  destruct (vaccinated_well_formed draws ve city snapshot 0 Hwf) as (sv & Hsv).
  pose proof (well_formed_length _ _ Hsv) as Hlen.
  rewrite vaccinated_length in Hlen.
  pose proof (days_bound_length sv dc Hdc) as Hbound.
  destruct (run_val_extinct dc (Z.to_nat (Py.len city + dc)) Hdc _ _ 0 Hsv)
    as (city' & snap' & d' & Hrun & Hwf' & Hnone & Hd).
  { unfold Py.len. lia. }
  destruct (run_val_post _ _ _ _ _ _ Hrun) as (Hlen' & _).
  rewrite vaccinated_length in Hlen'.
  exists city', d'. split; [done|]. split; [|split; [done|unfold Py.len; lia]].
  apply count_infected_none.
  by rewrite (well_formed_stop_test _ _ Hwf'), Hnone.
Qed.

Section CmdFacts.

Variable genrand_res53 : source → nat → N.

(** X16: when [cmd] returns, it returns -1 or 0, and -1 exactly when the
    validation rejects a token: it has then printed the error message and
    nothing else, and has neither seeded the generator nor drawn from it. *)
Theorem cmd_returns city dc seed ve num_trials task debug w out :
  cmd genrand_res53 city dc seed ve num_trials task debug w = Ok out →
  (returned out = -1 ∨ returned out = 0)
  ∧ (returned out = -1 ↔ check_city (cmd_city city) = Ok Rejected)
  ∧ (returned out = 0 → Forall token_ok (cmd_city city))
  ∧ (returned out = -1 →
     stdout out = [PrintError]
     ∧ seedings (after out) = seedings w
     ∧ gen (after out) = gen w
     ∧ drawn (after out) = drawn w)
  ∧ DEBUG out = debug.
Proof.
  unfold cmd. cbn [alloc mbind result_bind].
  destruct (check_city (cmd_city city)) as [[|]|e] eqn:Hcheck;
    cbn [mbind result_bind]; [| |done].
  - (* accepted *)
    intros H. assert (returned out = 0 ∧ DEBUG out = debug) as [H0 HD].
    { destruct task.
      - destruct (run_simulation _ _ _ _ _ _) as [[[r' d] w2]|]; [|done].
        cbn [mbind result_bind] in H.
        destruct (read r' w2) as [[final w3]|]; [|done].
        cbn [mbind result_bind] in H. by simplify_eq.
      - destruct (calc_avg_days_to_zero_infections _ _ _ _ _ _ _)
          as [[avg w2]|]; [|done].
        cbn [mbind result_bind] in H. by simplify_eq. }
    rewrite H0. split; [by right|]. split; [done|].
    split; [intros _; by apply check_city_accepted|]. by split.
  - (* rejected *)
    intros H. simplify_eq. cbn. split; [by left|]. done.
Qed.

(** X17: for a city of the specification that is not empty and has no
    vaccinated person, written as comma-separated tokens, and
    [days_contagious >= 1], [cmd] in single mode returns 0 after printing a
    final city of the same length in which nobody is infected, and a number
    of days below [N + days_contagious]. *)
Theorem cmd_single snapshot dc seed ve num_trials debug w :
  snapshot ≠ [] →
  Forall (fun p => p ≠ Vaccinated) snapshot →
  1 <= dc →
  ∃ final days w',
    cmd genrand_res53 (comma_join (render <$> snapshot)) dc seed ve
      num_trials Single debug w
    = Ok (CmdOutcome 0 [PrintRunningOne; PrintFinalCity final; PrintDays days]
            debug w')
    ∧ count_infected final = 0
    ∧ length final = length snapshot
    ∧ 0 <= days < Z.of_nat (length snapshot) + dc.
Proof.
  intros Hne Hall Hdc.
  destruct (cmd_city_render snapshot Hne Hall) as [Hcity Hok].
  unfold cmd. rewrite Hcity. cbn [alloc mbind result_bind]. rewrite Hok.
  cbn [mbind result_bind].
  set (w1 := set_heap (heap w ++ [render <$> snapshot]) w).
  assert (heap w1 !! length (heap w) = Some (render <$> snapshot)) as Hr.
  { by apply list_lookup_middle. }
  pose proof (run_simulation_spec genrand_res53 (length (heap w)) dc seed ve
                _ w1 Hr) as Hrun.
  destruct (run_simulation_val_extinct
              (nth_random genrand_res53 (seeded seed w1))
              (render <$> snapshot) snapshot dc ve Hdc
              (well_formed_render snapshot))
    as (final & days & Hv & Hnone & Hlen & Hdays).
  rewrite Hv in Hrun. destruct Hrun as (r' & ext & -> & Hr').
  cbn [mbind result_bind]. unfold read. cbn [heap]. rewrite Hr'.
  cbn [mbind result_bind fst].
  exists final, days. eexists. split; [done|]. split; [done|].
  rewrite length_fmap in Hlen. split; [done|].
  unfold Py.len in Hdays. by rewrite length_fmap in Hdays.
Qed.

(** X18: for such a city, [cmd] in average mode raises AssertionError when
    [num_trials <= 0], and TypeError when [num_trials > 0] and no seed was
    given, which is the default of the command line. *)
Theorem cmd_average_raises snapshot dc seed ve num_trials debug w :
  snapshot ≠ [] →
  Forall (fun p => p ≠ Vaccinated) snapshot →
  (num_trials <= 0 →
   cmd genrand_res53 (comma_join (render <$> snapshot)) dc seed ve
     num_trials Average debug w = Raise AssertionError)
  ∧ (num_trials > 0 →
     cmd genrand_res53 (comma_join (render <$> snapshot)) dc None ve
       num_trials Average debug w = Raise TypeError).
Proof.
  intros Hne Hall.
  destruct (cmd_city_render snapshot Hne Hall) as [Hcity Hok].
  unfold cmd. rewrite Hcity. cbn [alloc mbind result_bind]. rewrite Hok.
  cbn [mbind result_bind].
  set (w1 := set_heap (heap w ++ [render <$> snapshot]) w).
  assert (heap w1 !! length (heap w) = Some (render <$> snapshot)) as Hr.
  { by apply list_lookup_middle. }
  split; intros Hn.
  - unfold calc_avg_days_to_zero_infections.
    by destruct (Z.gtb_spec num_trials 0); [lia|].
  - unfold calc_avg_days_to_zero_infections.
    destruct (Z.gtb_spec num_trials 0); [|lia]. cbn [negb].
    destruct (Z.to_nat num_trials) as [|n] eqn:E; [lia|].
    cbn [mbind result_bind].
    by rewrite (bind_raise _ _ _ _
                  (trials_loop_unseeded genrand_res53 _ snapshot dc ve n []
                     w1 _ (well_formed_render snapshot) Hr)).
Qed.

End CmdFacts.

Lemma cmd_returns_witness :
  cmd (fun _ _ => 0%N) "S,V,I0" 2 None (Finite 0) 1 Single false
    (world_of ["R"])
  = Ok (CmdOutcome (-1) [PrintError] false
          (World [["R"]; ["S"; "V"; "I0"]] (SeedOS 0) 0 1 []))
  ∧ check_city (cmd_city "S,V,I0") = Ok Rejected.
Proof.
  assert (cmd (fun _ _ => 0%N) "S,V,I0" 2 None (Finite 0) 1 Single false
            (world_of ["R"])
          = Ok (CmdOutcome (-1) [PrintError] false
                  (World [["R"]; ["S"; "V"; "I0"]] (SeedOS 0) 0 1 [])))
    as Hcmd.
  { vm_compute. reflexivity. }
  split; [exact Hcmd|].
  destruct (cmd_returns (fun _ _ => 0%N) "S,V,I0" 2 None (Finite 0) 1 Single
              false (world_of ["R"])
              (CmdOutcome (-1) [PrintError] false
                 (World [["R"]; ["S"; "V"; "I0"]] (SeedOS 0) 0 1 []))
              Hcmd) as (_ & Hiff & _).
  by apply Hiff.
Defined.

Lemma cmd_single_witness :
  [Susceptible; Infected 0; Susceptible] ≠ []
  ∧ Forall (fun p => p ≠ Vaccinated) [Susceptible; Infected 0; Susceptible]
  ∧ 1 <= 2
  ∧ ∃ final days w',
      cmd (fun _ _ => 0%N) "S,I0,S" 2 None (Finite 0) 1 Single true
        (world_of [])
      = Ok (CmdOutcome 0 [PrintRunningOne; PrintFinalCity final;
                          PrintDays days] true w')
      ∧ count_infected final = 0
      ∧ length final = 3%nat
      ∧ 0 <= days < 3 + 2.
Proof.
  assert (Forall (fun p => p ≠ Vaccinated)
            [Susceptible; Infected 0; Susceptible]) as Hall.
  { repeat first [apply Forall_nil_2 | apply Forall_cons_2; [done|]]. }
  split; [done|]. split; [exact Hall|]. split; [done|].
  apply (cmd_single (fun _ _ => 0%N) [Susceptible; Infected 0; Susceptible]
           2 None (Finite 0) 1 true (world_of [])); [done|exact Hall|done].
Defined.

Lemma cmd_average_raises_witness :
  [Susceptible; Infected 0] ≠ []
  ∧ Forall (fun p => p ≠ Vaccinated) [Susceptible; Infected 0]
  ∧ 0 <= 0
  ∧ cmd (fun _ _ => 0%N) "S,I0" 2 (Some 3) (Finite 0) 0 Average false
      (world_of [])
    = Raise AssertionError
  ∧ 1 > 0
  ∧ cmd (fun _ _ => 0%N) "S,I0" 2 None (Finite 0) 1 Average false
      (world_of [])
    = Raise TypeError.
Proof.
  assert (Forall (fun p => p ≠ Vaccinated) [Susceptible; Infected 0])
    as Hall.
  { repeat first [apply Forall_nil_2 | apply Forall_cons_2; [done|]]. }
  split; [done|]. split; [exact Hall|]. split; [done|]. split.
  - apply (cmd_average_raises (fun _ _ => 0%N) [Susceptible; Infected 0] 2
             (Some 3) (Finite 0) 0 false (world_of []) ltac:(done) Hall).
    done.
  - split; [done|].
    apply (cmd_average_raises (fun _ _ => 0%N) [Susceptible; Infected 0] 2
             None (Finite 0) 1 false (world_of []) ltac:(done) Hall).
    done.
Defined.

Example cmd_single_ex :
  cmd (fun _ _ => 0%N) " S, I0 ,S" 2 None (Finite 0) 1 Single false
    (world_of [])
  = Ok (CmdOutcome 0
          [PrintRunningOne; PrintFinalCity ["R"; "R"; "R"]; PrintDays 3] false
          (World [[]; ["S"; "I0"; "S"]; ["S"; "I0"; "S"]; ["I0"; "I1"; "I0"];
                  ["I1"; "R"; "I1"]; ["R"; "R"; "R"]]
                 (SeedOS 1) 2 2 [None])).
Proof. reflexivity. Qed.
